(** * progress-timer: a shallow embedding of [timer.go]

    The program is a Bubble Tea application: a [model] value, an [Update]
    reducer from a model and a message to a new model and a command, and a
    [View].  Go's [int], [int64] and [time.Duration] are 64-bit integers and
    are embedded as [Z] with the wrap-around written out; Go strings are byte
    sequences and are embedded as [list byte]. *)

From Stdlib Require Import ZArith List Bool Lia.
From Stdlib Require Import Strings.Byte Strings.String.
From Stdlib Require Import Floats.PrimFloat Numbers.Cyclic.Int63.Uint63.
Import ListNotations.

Local Open Scope Z_scope.

Set Warnings "-register-all".

(** ** Machine integers *)

Module Int64.

Definition modulus : Z := 2 ^ 64.
Definition MaxInt64 : Z := 2 ^ 63 - 1.
Definition MinInt64 : Z := - 2 ^ 63.

(** Two's complement reduction of an integer to the [int64] range. *)
Definition wrap (x : Z) : Z := (x + 2 ^ 63) mod modulus - 2 ^ 63.

Definition in_range (x : Z) : Prop := MinInt64 <= x <= MaxInt64.

Definition add (x y : Z) : Z := wrap (x + y).
Definition sub (x y : Z) : Z := wrap (x - y).
Definition mul (x y : Z) : Z := wrap (x * y).
Definition neg (x : Z) : Z := wrap (- x).
(** Go's [/] and [%] truncate toward zero. *)
Definition quo (x y : Z) : Z := wrap (Z.quot x y).
Definition rem (x y : Z) : Z := Z.rem x y.

(** [uint64(x)] of an [int64]. *)
Definition to_uint64 (x : Z) : Z := x mod modulus.

End Int64.

(** ** Byte strings *)

Definition gostring : Type := list byte.

Definition str (s : string) : gostring := list_byte_of_string s.

Definition byteval (c : byte) : Z := Z.of_N (Byte.to_N c).

Definition byte_of_Z (x : Z) : byte :=
  match Byte.of_N (Z.to_N x) with
  | Some b => b
  | None => x00
  end.

Definition isDigit (c : byte) : bool := (48 <=? byteval c) && (byteval c <=? 57).

(** ** package strconv *)

Module strconv.

Inductive NumError : Type := ErrSyntax | ErrRange.

Inductive result : Type :=
| Ok (n : Z)
| Err (v : Z) (e : NumError).

(** The digit loop of [Atoi]'s fast path: [ch -= '0'] on a [byte], a
    syntax error when [ch > 9], else [n = n*10 + int(ch)].  The fast path
    is taken for at most 18 bytes, so [n] stays below [10^18] and the
    [int] arithmetic never wraps. *)
Fixpoint atoiLoop (n : Z) (s : gostring) : option Z :=
  match s with
  | [] => Some n
  | ch :: s' =>
      let ch' := (byteval ch - 48) mod 256 in
      if 9 <? ch' then None else atoiLoop (n * 10 + ch') s'
  end.

Definition isSign (c : byte) : bool :=
  (byteval c =? 45) || (byteval c =? 43).

Definition isMinus (c : byte) : bool := byteval c =? 45.

Definition atoiFast (s : gostring) : result :=
  match s with
  | [] => Err 0 ErrSyntax
  | c0 :: rest =>
      let digits := if isSign c0 then rest else s in
      match digits with
      | [] => Err 0 ErrSyntax
      | _ =>
          match atoiLoop 0 digits with
          | None => Err 0 ErrSyntax
          | Some n => Ok (if isMinus c0 then - n else n)
          end
      end
  end.

Definition MaxUint64 : Z := 2 ^ 64 - 1.

(** The loop of [ParseUint(s, 10, 64)]: in base 10 every byte that is not
    a decimal digit (letters and the underscore included) is a syntax
    error; [cutoff = MaxUint64/10 + 1]. *)
Fixpoint parseUintLoop (n : Z) (s : gostring) : Z * option NumError :=
  match s with
  | [] => (n, None)
  | c :: s' =>
      if isDigit c then
        let d := byteval c - 48 in
        if MaxUint64 / 10 + 1 <=? n then (MaxUint64, Some ErrRange)
        else
          let n10 := n * 10 in
          let n1 := (n10 + d) mod Int64.modulus in
          if (n1 <? n10) || (MaxUint64 <? n1) then (MaxUint64, Some ErrRange)
          else parseUintLoop n1 s'
      else (0, Some ErrSyntax)
  end.

Definition ParseUint (s : gostring) : Z * option NumError :=
  match s with
  | [] => (0, Some ErrSyntax)
  | _ => parseUintLoop 0 s
  end.

(** [ParseInt(s, 10, 0)] with a 64-bit [int]. *)
Definition ParseInt (s : gostring) : result :=
  match s with
  | [] => Err 0 ErrSyntax
  | c0 :: rest =>
      let neg := isMinus c0 in
      let s1 := if isSign c0 then rest else s in
      match ParseUint s1 with
      | (_, Some ErrSyntax) => Err 0 ErrSyntax
      | (un, _) =>
          let cutoff := 2 ^ 63 in
          if negb neg && (cutoff <=? un) then Err (cutoff - 1) ErrRange
          else if neg && (cutoff <? un) then Err (- cutoff) ErrRange
          else Ok (if neg then Int64.neg (Int64.wrap un) else Int64.wrap un)
      end
  end.

(** [strconv.Atoi] on a 64-bit platform. *)
Definition Atoi (s : gostring) : result :=
  let sLen := Z.of_nat (List.length s) in
  if (0 <? sLen) && (sLen <? 19) then atoiFast s else ParseInt s.

(** The digit loop of [formatBits] in base 10 on a [uint64]: digits are
    produced from the least significant one and written in front of those
    already there.  A [uint64] has at most 20 digits. *)
Fixpoint formatLoop (fuel : nat) (u : Z) (acc : gostring) : gostring :=
  match fuel with
  | O => acc
  | S fuel' =>
      if u <? 10 then byte_of_Z (48 + u) :: acc
      else
        let next := u / 10 in
        formatLoop fuel' next (byte_of_Z (48 + u - next * 10) :: acc)
  end.

Definition formatDigits (u : Z) : gostring := formatLoop 20 u [].

(** [strconv.Itoa]: the decimal numeral of an [int]. *)
Definition Itoa (i : Z) : gostring :=
  if i <? 0 then byte_of_Z 45 :: formatDigits (- i) else formatDigits i.

End strconv.

(** ** package fmt *)

Module fmt.

(** [fmt.Sprintf("%02d", x)] for an [int64]: [fmtInteger] with the zero
    flag and width 2.  The digits of the absolute value are padded with
    zeros up to the precision, which is the width, less one when a sign
    is printed; the sign comes last. *)
Definition Sprintf02d (x : Z) : gostring :=
  let negative := x <? 0 in
  let u := if negative then Int64.to_uint64 (- x) else x in
  let prec := if negative then 1%nat else 2%nat in
  let ds := strconv.formatDigits u in
  let padded := repeat (byte_of_Z 48) (prec - List.length ds) ++ ds in
  if negative then byte_of_Z 45 :: padded else padded.

End fmt.

(** ** package strings *)

Module strings.

(** The six ASCII bytes of [asciiSpace]: tab, line feed, vertical tab,
    form feed, carriage return and space. *)
Definition asciiSpace (c : byte) : bool :=
  let b := byteval c in ((9 <=? b) && (b <=? 13)) || (b =? 32).

(** The two-byte UTF-8 encodings of white space ([unicode.IsSpace]):
    U+0085 and U+00A0. *)
Definition space2 (c1 c2 : byte) : bool :=
  (byteval c1 =? 194) && ((byteval c2 =? 133) || (byteval c2 =? 160)).

(** The three-byte encodings: U+1680, U+2000 to U+200A, U+2028, U+2029,
    U+202F, U+205F and U+3000. *)
Definition space3 (c1 c2 c3 : byte) : bool :=
  let b1 := byteval c1 in
  let b2 := byteval c2 in
  let b3 := byteval c3 in
  ((b1 =? 225) && (b2 =? 154) && (b3 =? 128))
  || ((b1 =? 226) && (b2 =? 128)
      && (((128 <=? b3) && (b3 <=? 138)) || (b3 =? 168) || (b3 =? 169) || (b3 =? 175)))
  || ((b1 =? 226) && (b2 =? 129) && (b3 =? 159))
  || ((b1 =? 227) && (b2 =? 128) && (b3 =? 128)).

(** [TrimLeftFunc(s, unicode.IsSpace)]: the first rune is decoded and
    dropped while it is white space.  A white-space rune is decoded
    exactly from one of the encodings above; any other byte sequence,
    malformed ones included, decodes to a rune that is not white space. *)
Fixpoint TrimLeftSpace (s : gostring) : gostring :=
  match s with
  | [] => []
  | c1 :: r1 =>
      if asciiSpace c1 then TrimLeftSpace r1
      else
        match r1 with
        | [] => s
        | c2 :: r2 =>
            if space2 c1 c2 then TrimLeftSpace r2
            else
              match r2 with
              | [] => s
              | c3 :: r3 => if space3 c1 c2 c3 then TrimLeftSpace r3 else s
              end
        end
  end.

(** [TrimRightFunc(s, unicode.IsSpace)] on the reversed byte sequence:
    [DecodeLastRuneInString] steps back to the nearest rune start and
    yields a white-space rune exactly when the string ends with one of
    the encodings above. *)
Fixpoint trimRev (r : gostring) : gostring :=
  match r with
  | [] => []
  | c1 :: r1 =>
      if asciiSpace c1 then trimRev r1
      else
        match r1 with
        | [] => r
        | c2 :: r2 =>
            if space2 c2 c1 then trimRev r2
            else
              match r2 with
              | [] => r
              | c3 :: r3 => if space3 c3 c2 c1 then trimRev r3 else r
              end
        end
  end.

Definition TrimRightSpace (s : gostring) : gostring := rev (trimRev (rev s)).

(** [strings.TrimSpace]: all leading and trailing white space removed. *)
Definition TrimSpace (s : gostring) : gostring := TrimRightSpace (TrimLeftSpace s).

End strings.

(** ** package utf8 *)

Module utf8.

(** [utf8.RuneStart]: the byte is not a continuation byte. *)
Definition RuneStart (c : byte) : bool :=
  negb (Z.land (byteval c) 192 =? 128).

(** The number of rune starts of a string; for the encoding of a rune
    slice this is the number of runes. *)
Fixpoint runeStarts (s : gostring) : Z :=
  match s with
  | [] => 0
  | c :: s' => (if RuneStart c then 1 else 0) + runeStarts s'
  end.

End utf8.

(** ** package time *)

Module time.

(** [time.Duration] is an [int64] count of nanoseconds. *)
Definition Duration : Type := Z.

Definition Nanosecond : Duration := 1.
Definition Second : Duration := 1000000000.
Definition Minute : Duration := 60 * Second.
Definition Hour : Duration := 60 * Minute.

Definition minDuration : Duration := Int64.MinInt64.
Definition maxDuration : Duration := Int64.MaxInt64.

Definition lessThanHalf (x y : Duration) : bool :=
  (Int64.to_uint64 x + Int64.to_uint64 x) mod Int64.modulus <? Int64.to_uint64 y.

(** [Duration.Round]: rounding to the nearest multiple of [m], halfway
    values away from zero. *)
Definition Round (d m : Duration) : Duration :=
  if m <=? 0 then d
  else
    let r := Int64.rem d m in
    if d <? 0 then
      let r := Int64.neg r in
      if lessThanHalf r m then Int64.add d r
      else
        let d1 := Int64.add (Int64.sub d m) r in
        if d1 <? d then d1 else minDuration
    else
      if lessThanHalf r m then Int64.sub d r
      else
        let d1 := Int64.sub (Int64.add d m) r in
        if d <? d1 then d1 else maxDuration.

(** A [time.Time], as far as the program looks at it: not at all. *)
Definition Time : Type := Z.

End time.

(** ** package tea (Bubble Tea): messages and commands *)

Module tea.

Inductive KeyType : Type :=
| KeyCtrlC
| KeyEsc
| KeyEnter
| KeyBackspace
| KeyRunes
| KeyOther (code : Z).

(** [tea.KeyMsg]: the key type and, for [KeyRunes], the text typed. *)
Record Key : Type := { Type_ : KeyType; Runes : gostring }.

End tea.

(** [tea.Msg] is an open interface; the program distinguishes key
    messages and its own [tickMsg], and hands everything else on. *)
Inductive Msg : Type :=
| KeyMsg (k : tea.Key)
| tickMsg (t : time.Time)
| otherMsg (tag : Z).

(** [tea.Cmd]: the commands the program and its text input return. *)
Inductive Cmd : Type :=
| nilCmd
| Quit
| Tick (d : time.Duration) (fn : time.Time -> Msg)
| EnterAltScreen
| Blink
| Batch (cs : list Cmd)
| widgetCmd (tag : Z).

(** ** The text input widget

    [textinput.Model] belongs to the Bubbles library.  The program reads it
    through [Value] and drives it through [Update]; [New] stands for the
    widget as [initialModel] configures it (focused, [CharLimit = 5],
    [Width = 20]).  The widget keeps its content within [CharLimit] runes
    whatever message it is given. *)

Definition CharLimit : Z := 5.

Class TextInput (T : Type) : Type := {
  New : T;
  Value : T -> gostring;
  widgetUpdate : T -> Msg -> T * Cmd;
  Value_New : Value New = [];
  widgetUpdate_limit : forall (t : T) (msg : Msg),
    utf8.runeStarts (Value t) <= CharLimit ->
    utf8.runeStarts (Value (fst (widgetUpdate t msg))) <= CharLimit
}.

(** A minimal widget: typed text is appended while it fits. *)
Definition lineUpdate (t : gostring) (msg : Msg) : gostring * Cmd :=
  match msg with
  | KeyMsg k =>
      match tea.Type_ k with
      | tea.KeyRunes =>
          let v := t ++ tea.Runes k in
          if utf8.runeStarts v <=? CharLimit then (v, nilCmd) else (t, nilCmd)
      | _ => (t, nilCmd)
      end
  | _ => (t, nilCmd)
  end.

(** ** The program *)

Inductive inputState : Type := inputtingTime | running.

Definition inputState_eqb (a b : inputState) : bool :=
  match a, b with
  | inputtingTime, inputtingTime => true
  | running, running => true
  | _, _ => false
  end.

Module progress.
(** [progress.Model], as [initialModel] configures it. *)
Record Model : Type := { Width : Z; ShowPercentage : bool }.
End progress.

Definition errInvalid : gostring := str "Please enter a valid positive number".

(** [float64(x)] for an [int64]: the nearest binary64 value. *)
Definition float64 (x : Z) : float :=
  if x <? 0 then
    if x =? Int64.MinInt64 then
      PrimFloat.opp (PrimFloat.mul (PrimFloat.of_uint63 (Uint63.of_Z (2 ^ 62))) 2%float)
    else PrimFloat.opp (PrimFloat.of_uint63 (Uint63.of_Z (- x)))
  else PrimFloat.of_uint63 (Uint63.of_Z x).

(** [formatDuration] (timer.go, lines 122-134). *)
Definition formatDuration (d : time.Duration) : gostring :=
  let d := time.Round d time.Second in
  let h := Int64.quo d time.Hour in
  let d := Int64.sub d (Int64.mul h time.Hour) in
  let m := Int64.quo d time.Minute in
  let d := Int64.sub d (Int64.mul m time.Minute) in
  let s := Int64.quo d time.Second in
  if 0 <? h then
    fmt.Sprintf02d h ++ str ":" ++ fmt.Sprintf02d m ++ str ":" ++ fmt.Sprintf02d s
  else
    fmt.Sprintf02d m ++ str ":" ++ fmt.Sprintf02d s.

(** [tickEverySecond] (lines 73-77). *)
Definition tickEverySecond : Cmd := Tick time.Second tickMsg.

Section Program.

Context {T : Type} `{TI : TextInput T}.

Record model : Type := {
  textInput : T;
  state : inputState;
  duration : time.Duration;
  timeRemaining : time.Duration;
  progress : progress.Model;
  done : bool;
  err : gostring
}.

Definition set_textInput (m : model) (ti : T) : model :=
  {| textInput := ti; state := state m; duration := duration m;
     timeRemaining := timeRemaining m; progress := progress m;
     done := done m; err := err m |}.

Definition set_err (m : model) (e : gostring) : model :=
  {| textInput := textInput m; state := state m; duration := duration m;
     timeRemaining := timeRemaining m; progress := progress m;
     done := done m; err := e |}.

Definition set_state (m : model) (s : inputState) : model :=
  {| textInput := textInput m; state := s; duration := duration m;
     timeRemaining := timeRemaining m; progress := progress m;
     done := done m; err := err m |}.

Definition set_duration (m : model) (d : time.Duration) : model :=
  {| textInput := textInput m; state := state m; duration := d;
     timeRemaining := timeRemaining m; progress := progress m;
     done := done m; err := err m |}.

Definition set_timeRemaining (m : model) (d : time.Duration) : model :=
  {| textInput := textInput m; state := state m; duration := duration m;
     timeRemaining := d; progress := progress m;
     done := done m; err := err m |}.

Definition set_done (m : model) (b : bool) : model :=
  {| textInput := textInput m; state := state m; duration := duration m;
     timeRemaining := timeRemaining m; progress := progress m;
     done := b; err := err m |}.

(** [initialModel] (lines 44-63): the fields it does not name have their
    zero value. *)
Definition initialModel : model :=
  {| textInput := New;
     state := inputtingTime;
     duration := 0;
     timeRemaining := 0;
     progress := {| progress.Width := 40; progress.ShowPercentage := false |};
     done := false;
     err := [] |}.

(** [Init] (lines 65-71). *)
Definition Init (m : model) : Cmd := Batch [Blink; tickEverySecond; EnterAltScreen].

(** The [KeyEnter] case of [Update] while [inputtingTime] (lines 88-100). *)
Definition submit (m : model) : model * Cmd :=
  let input := strings.TrimSpace (Value (textInput m)) in
  match strconv.Atoi input with
  | strconv.Err _ _ => (set_err m errInvalid, nilCmd)
  | strconv.Ok minutes =>
      if minutes <=? 0 then (set_err m errInvalid, nilCmd)
      else
        let m := set_duration m (Int64.mul minutes time.Minute) in
        let m := set_timeRemaining m (duration m) in
        let m := set_state m running in
        let m := set_err m [] in
        (m, nilCmd)
  end.

(** The [tickMsg] case of [Update] (lines 103-111). *)
Definition tick (m : model) : model * Cmd :=
  let m :=
    if inputState_eqb (state m) running && (0 <? timeRemaining m) then
      let m := set_timeRemaining m (Int64.sub (timeRemaining m) time.Second) in
      if timeRemaining m <=? 0 then set_done (set_timeRemaining m 0) true else m
    else m in
  (m, tickEverySecond).

(** What [Update] does after its [switch] (lines 114-119): the message
    goes to the text input while [inputtingTime], and is dropped
    otherwise. *)
Definition forward (m : model) (msg : Msg) : model * Cmd :=
  match state m with
  | inputtingTime =>
      let (ti, cmd) := widgetUpdate (textInput m) msg in
      (set_textInput m ti, cmd)
  | running => (m, nilCmd)
  end.

(** [Update] (lines 79-120). *)
Definition Update (m : model) (msg : Msg) : model * Cmd :=
  match msg with
  | KeyMsg k =>
      match tea.Type_ k with
      | tea.KeyCtrlC | tea.KeyEsc => (m, Quit)
      | tea.KeyEnter =>
          match state m with
          | inputtingTime => submit m
          | running => forward m msg
          end
      | _ => forward m msg
      end
  | tickMsg _ => tick m
  | _ => forward m msg
  end.

(** The values [View] computes for the running screen (lines 151-152). *)
Definition elapsed (m : model) : time.Duration :=
  Int64.sub (duration m) (timeRemaining m).

Definition percentComplete (m : model) : float :=
  PrimFloat.div (float64 (elapsed m)) (float64 (duration m)).

Record runningFrame : Type := {
  timeStr : gostring;
  fraction : float;
  doneLine : bool;
  elapsedStr : gostring;
  totalStr : gostring
}.

Inductive frame : Type :=
| inputFrame (field : gostring) (alert : option gostring)
| timerFrame (f : runningFrame).

(** [View] (lines 136-182), without the styling and the layout of the
    lines. *)
Definition View (m : model) : frame :=
  match state m with
  | inputtingTime =>
      inputFrame (Value (textInput m))
                 (match err m with [] => None | _ => Some (err m) end)
  | running =>
      timerFrame {| timeStr := formatDuration (timeRemaining m);
                    fraction := percentComplete m;
                    doneLine := done m;
                    elapsedStr := formatDuration (elapsed m);
                    totalStr := formatDuration (duration m) |}
  end.

(** The model after a sequence of messages. *)
Definition step (m : model) (msg : Msg) : model := fst (Update m msg).

Definition run (m : model) (msgs : list Msg) : model := fold_left step msgs m.

(** The states of a session: [initialModel], and what [Update] makes of
    them. *)
Inductive reachable : model -> Prop :=
| reachable_init : reachable initialModel
| reachable_step (m : model) (msg : Msg) :
    reachable m -> reachable (step m msg).

End Program.

Arguments model T : clear implicits.

(** ** Notions used in the statements *)

(** A byte that [Atoi] can accept: a decimal digit or a sign. *)
Definition signOrDigit (c : byte) : bool := isDigit c || strconv.isSign c.

(** The integer a string denotes, read without any bound: an optional
    sign, then one or more decimal digits. *)
Fixpoint decimalValue (acc : Z) (s : gostring) : option Z :=
  match s with
  | [] => Some acc
  | c :: s' =>
      if isDigit c then decimalValue (acc * 10 + (byteval c - 48)) s' else None
  end.

Definition readInteger (s : gostring) : option Z :=
  match s with
  | [] => None
  | c0 :: rest =>
      match (if strconv.isSign c0 then rest else s) with
      | [] => None
      | ds =>
          match decimalValue 0 ds with
          | Some v => Some (if strconv.isMinus c0 then - v else v)
          | None => None
          end
      end
  end.

(** The string denotes a positive integer. *)
Definition denotesPositive (s : gostring) : bool :=
  match readInteger s with
  | Some n => 0 <? n
  | None => false
  end.

(** Strings made of white space only: sequences of the encodings of
    white-space runes. *)
Inductive spaces : gostring -> Prop :=
| spaces_nil : spaces []
| spaces_ascii (c : byte) (r : gostring) :
    strings.asciiSpace c = true -> spaces r -> spaces (c :: r)
| spaces_two (c1 c2 : byte) (r : gostring) :
    strings.space2 c1 c2 = true -> spaces r -> spaces (c1 :: c2 :: r)
| spaces_three (c1 c2 c3 : byte) (r : gostring) :
    strings.space3 c1 c2 c3 = true -> spaces r -> spaces (c1 :: c2 :: c3 :: r).

(** The condition under which [Update] refuses a submitted text:
    [err != nil || minutes <= 0]. *)
Definition refused (input : gostring) : bool :=
  match strconv.Atoi input with
  | strconv.Err _ _ => true
  | strconv.Ok minutes => minutes <=? 0
  end.

(** Key messages by type. *)
Definition key (t : tea.KeyType) (runes : gostring) : Msg :=
  KeyMsg {| tea.Type_ := t; tea.Runes := runes |}.

Definition enter : Msg := key tea.KeyEnter [].

(** The largest count of minutes that is a [time.Duration]. *)
Definition maxMinutes : Z := 153722867.

(** The invariant of a session. *)
Record invariant {T : Type} `{TextInput T} (m : model T) : Prop := {
  inv_limit : utf8.runeStarts (Value (textInput m)) <= CharLimit;
  inv_remaining : 0 <= timeRemaining m <= duration m;
  inv_duration : duration m <= 99999 * time.Minute;
  inv_done : done m = true -> timeRemaining m = 0;
  inv_input : state m = inputtingTime ->
              duration m = 0 /\ timeRemaining m = 0 /\ done m = false;
  inv_running : state m = running -> 0 < duration m
}.

(** [lineUpdate] is a text input in the sense of the interface. *)
#[local] Instance lineInput : TextInput gostring.
Proof.
  refine {| New := []; Value := fun t => t; widgetUpdate := lineUpdate |}.
  - reflexivity.
  - intros t msg Ht. unfold lineUpdate.
    destruct msg as [k | t0 | tag]; simpl; try exact Ht.
    destruct (tea.Type_ k); simpl; try exact Ht.
    destruct (utf8.runeStarts (t ++ tea.Runes k) <=? CharLimit) eqn:E; simpl.
    + apply Z.leb_le. exact E.
    + exact Ht.
Defined.

(** A session of the program over the minimal widget: the input screen
    with [v] in the buffer. *)
Definition typed (v : gostring) : model gostring :=
  set_textInput initialModel v.

(** A running state that no session reaches: no duration at all. *)
Definition zeroDuration : model gostring :=
  set_state initialModel running.

(** The Enter key, and the session that types "1" and confirms, before
    and after sixty ticks. *)
Definition enterKey : tea.Key := {| tea.Type_ := tea.KeyEnter; tea.Runes := [] |}.

Definition started : model gostring :=
  run initialModel [key tea.KeyRunes (str "1"); enter].

Definition finished : model gostring :=
  run started (map tickMsg (repeat 0 60)).

(** ** Notions used in the further properties *)

(** The keys that end the session. *)
Definition isQuitKey (msg : Msg) : bool :=
  match msg with
  | KeyMsg k =>
      match tea.Type_ k with
      | tea.KeyCtrlC | tea.KeyEsc => true
      | _ => false
      end
  | _ => false
  end.

Definition isTick (msg : Msg) : bool :=
  match msg with
  | tickMsg _ => true
  | _ => false
  end.

(** The model a successful submission leaves: running, with [d] as the
    total and the remaining time, and no error. *)
Definition startedWith {T : Type} (m : model T) (d : time.Duration) : model T :=
  {| textInput := textInput m; state := running; duration := d;
     timeRemaining := d; progress := progress m; done := done m; err := [] |}.

(** The session that confirms the numeral of 153722868, whose minutes
    overflow a duration. *)
Definition overflowed : model gostring :=
  step (typed (strconv.Itoa 153722868)) enter.

(** What the states of a session look like, beyond [invariant]: whole
    minutes and whole seconds, the completion flag, the error text. *)
Record shape {T : Type} (m : model T) : Prop := {
  shape_whole : exists n k : Z,
    0 <= n <= 99999 /\ duration m = n * time.Minute
    /\ 0 <= k <= 60 * n /\ timeRemaining m = k * time.Second;
  shape_done : state m = running -> (done m = true <-> timeRemaining m = 0);
  shape_idle : state m = inputtingTime -> done m = false;
  shape_err : err m = [] \/ (err m = errInvalid /\ state m = inputtingTime)
}.

(** The clock reading of [s] seconds: minutes and seconds, with the hours
    in front from one hour on. *)
Definition clock (s : Z) : gostring :=
  if s <? 3600 then
    fmt.Sprintf02d (s / 60 mod 60) ++ str ":" ++ fmt.Sprintf02d (s mod 60)
  else
    fmt.Sprintf02d (s / 3600) ++ str ":" ++ fmt.Sprintf02d (s / 60 mod 60)
    ++ str ":" ++ fmt.Sprintf02d (s mod 60).

(** * Properties *)

(** ** Machine integers and bytes *)

Ltac int64_bounds :=
  unfold time.maxDuration, time.minDuration, Int64.in_range in *;
  unfold Int64.MinInt64, Int64.MaxInt64, Int64.modulus,
    time.Hour, time.Minute, time.Second in *.

Lemma wrap_in_range (x : Z) : Int64.in_range x -> Int64.wrap x = x.
Proof.
  unfold Int64.in_range, Int64.wrap, Int64.MinInt64, Int64.MaxInt64, Int64.modulus.
  intros H. rewrite Z.mod_small; lia.
Qed.

Lemma wrap_bounds (x : Z) : Int64.in_range (Int64.wrap x).
Proof.
  unfold Int64.in_range, Int64.wrap, Int64.MinInt64, Int64.MaxInt64, Int64.modulus.
  pose proof (Z.mod_pos_bound (x + 2 ^ 63) (2 ^ 64) ltac:(lia)). lia.
Qed.

Lemma byteval_bounds (c : byte) : 0 <= byteval c < 256.
Proof.
  unfold byteval. pose proof (Byte.to_N_bounded c). lia.
Qed.

Lemma byteval_digit (d : Z) : 0 <= d <= 9 -> byteval (byte_of_Z (48 + d)) = 48 + d.
Proof.
  intros H.
  assert (d = 0 \/ d = 1 \/ d = 2 \/ d = 3 \/ d = 4 \/ d = 5 \/ d = 6
          \/ d = 7 \/ d = 8 \/ d = 9) as Hd by lia.
  repeat (destruct Hd as [-> | Hd]; [reflexivity|]). subst d. reflexivity.
Qed.

Lemma isDigit_byteval (c : byte) : isDigit c = true <-> 48 <= byteval c <= 57.
Proof.
  unfold isDigit. rewrite andb_true_iff, !Z.leb_le. tauto.
Qed.

Lemma digit_test (c : byte) :
  (9 <? (byteval c - 48) mod 256) = negb (isDigit c).
Proof.
  pose proof (byteval_bounds c) as Hb. unfold isDigit.
  destruct (Z.ltb_spec 9 ((byteval c - 48) mod 256)) as [H | H];
    destruct (Z.leb_spec 48 (byteval c)) as [H1 | H1];
    destruct (Z.leb_spec (byteval c) 57) as [H2 | H2]; simpl; try reflexivity;
    exfalso; revert H; Z.div_mod_to_equations; lia.
Qed.

Lemma digit_value (c : byte) :
  isDigit c = true -> (byteval c - 48) mod 256 = byteval c - 48.
Proof.
  intros H. apply isDigit_byteval in H. apply Z.mod_small. lia.
Qed.

Lemma isDigit_not_sign (c : byte) : isDigit c = true -> strconv.isSign c = false.
Proof.
  intros H. apply isDigit_byteval in H. unfold strconv.isSign.
  apply orb_false_iff. split; apply Z.eqb_neq; lia.
Qed.

Lemma isDigit_not_minus (c : byte) : isDigit c = true -> strconv.isMinus c = false.
Proof.
  intros H. apply isDigit_byteval in H. unfold strconv.isMinus.
  apply Z.eqb_neq; lia.
Qed.

(** ** Decimal numerals: printing and reading *)

Lemma formatLoop_acc (fuel : nat) : forall (u : Z) (acc : gostring),
  strconv.formatLoop fuel u acc = strconv.formatLoop fuel u [] ++ acc.
Proof.
  induction fuel as [| fuel IH]; intros u acc; cbn [strconv.formatLoop].
  - reflexivity.
  - destruct (u <? 10).
    + reflexivity.
    + rewrite IH. rewrite (IH _ [_]). rewrite <- app_assoc. reflexivity.
Qed.

Lemma formatLoop_step (fuel : nat) (u : Z) :
  10 <= u ->
  strconv.formatLoop (S fuel) u [] =
  strconv.formatLoop fuel (u / 10) [] ++ [byte_of_Z (48 + u mod 10)].
Proof.
  intros H. cbn [strconv.formatLoop].
  destruct (Z.ltb_spec u 10) as [H1 | H1]; [lia|].
  rewrite formatLoop_acc.
  replace (48 + u - u / 10 * 10) with (48 + u mod 10); [reflexivity|].
  pose proof (Z.div_mod u 10 ltac:(lia)). lia.
Qed.

Lemma formatLoop_small (fuel : nat) (u : Z) :
  u < 10 -> strconv.formatLoop (S fuel) u [] = [byte_of_Z (48 + u)].
Proof.
  intros H. cbn [strconv.formatLoop]. destruct (Z.ltb_spec u 10); [reflexivity | lia].
Qed.

Lemma atoiLoop_app (a b : gostring) : forall n : Z,
  strconv.atoiLoop n (a ++ b) =
  match strconv.atoiLoop n a with
  | Some n' => strconv.atoiLoop n' b
  | None => None
  end.
Proof.
  induction a as [| c a IH]; intros n; cbn [strconv.atoiLoop app].
  - reflexivity.
  - destruct (9 <? (byteval c - 48) mod 256); [reflexivity | apply IH].
Qed.

Lemma atoiLoop_digit (n d : Z) :
  0 <= d <= 9 -> strconv.atoiLoop n [byte_of_Z (48 + d)] = Some (n * 10 + d).
Proof.
  intros H. cbn [strconv.atoiLoop]. rewrite byteval_digit by exact H.
  replace (48 + d - 48) with d by lia. rewrite Z.mod_small by lia.
  destruct (Z.ltb_spec 9 d); [lia | reflexivity].
Qed.

Lemma atoiLoop_formatLoop (fuel : nat) : forall (u n : Z),
  0 <= u < 10 ^ Z.of_nat fuel ->
  strconv.atoiLoop n (strconv.formatLoop fuel u []) =
  Some (n * 10 ^ Z.of_nat (List.length (strconv.formatLoop fuel u [])) + u).
Proof.
  induction fuel as [| fuel IH]; intros u n Hu.
  - simpl in *. f_equal. lia.
  - destruct (Z.lt_ge_cases u 10) as [Hs | Hb].
    + rewrite formatLoop_small by exact Hs. rewrite atoiLoop_digit by lia.
      simpl List.length. f_equal.
    + rewrite formatLoop_step by exact Hb.
      assert (0 <= u / 10 < 10 ^ Z.of_nat fuel) as Hq.
      { rewrite Nat2Z.inj_succ, Z.pow_succ_r in Hu by lia.
        split; [apply Z.div_pos; lia | apply Z.div_lt_upper_bound; lia]. }
      rewrite atoiLoop_app, (IH _ n Hq).
      pose proof (Z.mod_pos_bound u 10 ltac:(lia)) as Hm.
      rewrite atoiLoop_digit by lia. f_equal.
      rewrite length_app. simpl List.length.
      rewrite Nat2Z.inj_add. change (Z.of_nat 1) with 1.
      rewrite Z.pow_add_r by lia. change (10 ^ 1) with 10.
      pose proof (Z.div_mod u 10 ltac:(lia)) as Hdm.
      set (q := u / 10) in *. set (r := u mod 10) in *.
      set (p := 10 ^ Z.of_nat (List.length (strconv.formatLoop fuel q []))).
      rewrite Hdm. ring.
Qed.

Lemma formatLoop_length (fuel : nat) : forall (u : Z) (k : nat),
  (1 <= k <= fuel)%nat -> 0 <= u < 10 ^ Z.of_nat k ->
  (1 <= List.length (strconv.formatLoop fuel u []) <= k)%nat.
Proof.
  induction fuel as [| fuel IH]; intros u k Hk Hu.
  - lia.
  - destruct (Z.lt_ge_cases u 10) as [Hs | Hb].
    + rewrite formatLoop_small by exact Hs. simpl. lia.
    + rewrite formatLoop_step by exact Hb. rewrite length_app. simpl List.length.
      destruct k as [| k]; [lia|].
      destruct k as [| k].
      { change (10 ^ Z.of_nat 1) with 10 in Hu. lia. }
      assert (0 <= u / 10 < 10 ^ Z.of_nat (S k)) as Hq.
      { rewrite (Nat2Z.inj_succ (S k)), Z.pow_succ_r in Hu by lia.
        split; [apply Z.div_pos; lia | apply Z.div_lt_upper_bound; lia]. }
      pose proof (IH (u / 10) (S k) ltac:(lia) Hq). lia.
Qed.

Lemma formatLoop_digits (fuel : nat) : forall u : Z,
  0 <= u -> Forall (fun c => isDigit c = true) (strconv.formatLoop fuel u []).
Proof.
  induction fuel as [| fuel IH]; intros u Hu.
  - constructor.
  - destruct (Z.lt_ge_cases u 10) as [Hs | Hb].
    + rewrite formatLoop_small by exact Hs. constructor; [| constructor].
      apply isDigit_byteval. rewrite byteval_digit; lia.
    + rewrite formatLoop_step by exact Hb. apply Forall_app. split.
      * apply IH. apply Z.div_pos; lia.
      * pose proof (Z.mod_pos_bound u 10 ltac:(lia)).
        constructor; [| constructor].
        apply isDigit_byteval. rewrite byteval_digit; lia.
Qed.

Lemma formatDigits_value (u : Z) :
  0 <= u < 10 ^ 20 -> strconv.atoiLoop 0 (strconv.formatDigits u) = Some u.
Proof.
  intros H. unfold strconv.formatDigits.
  rewrite atoiLoop_formatLoop by exact H. f_equal.
Qed.

Lemma formatDigits_digits (u : Z) :
  0 <= u -> Forall (fun c => isDigit c = true) (strconv.formatDigits u).
Proof. apply formatLoop_digits. Qed.

Lemma formatDigits_length (u : Z) (k : nat) :
  (1 <= k <= 20)%nat -> 0 <= u < 10 ^ Z.of_nat k ->
  (1 <= List.length (strconv.formatDigits u) <= k)%nat.
Proof. apply formatLoop_length. Qed.

Lemma atoiLoop_zeros (k : nat) :
  strconv.atoiLoop 0 (repeat (byte_of_Z 48) k) = Some 0.
Proof.
  induction k as [| k IH]; [reflexivity | exact IH].
Qed.

(** [strconv.Atoi] reads back what [strconv.Itoa] prints, on the fast
    path. *)
Lemma Atoi_Itoa (n : Z) :
  0 <= n < 10 ^ 18 -> strconv.Atoi (strconv.Itoa n) = strconv.Ok n.
Proof.
  intros Hn. unfold strconv.Itoa.
  destruct (Z.ltb_spec n 0) as [Hneg | _]; [lia|].
  pose proof (formatDigits_length n 18 ltac:(lia) Hn) as Hlen.
  pose proof (formatDigits_digits n ltac:(lia)) as Hdig.
  pose proof (formatDigits_value n ltac:(lia)) as Hval.
  unfold strconv.Atoi.
  destruct (Z.ltb_spec 0 (Z.of_nat (List.length (strconv.formatDigits n))));
    [| lia].
  destruct (Z.ltb_spec (Z.of_nat (List.length (strconv.formatDigits n))) 19);
    [| lia].
  cbn [andb]. unfold strconv.atoiFast.
  destruct (strconv.formatDigits n) as [| c0 rest] eqn:E.
  - simpl in Hlen. lia.
  - inversion Hdig as [| ? ? Hc0 _]; subst.
    rewrite (isDigit_not_sign _ Hc0), (isDigit_not_minus _ Hc0), Hval.
    reflexivity.
Qed.

(** What [Atoi] accepts: a sign at most, then decimal digits only; on the
    fast path the value is below the power of ten of the length. *)
Lemma atoiLoop_Some (s : gostring) : forall n r : Z,
  0 <= n -> strconv.atoiLoop n s = Some r ->
  Forall (fun c => isDigit c = true) s
  /\ n * 10 ^ Z.of_nat (List.length s) <= r < (n + 1) * 10 ^ Z.of_nat (List.length s).
Proof.
  induction s as [| c s IH]; intros n r Hn H; cbn [strconv.atoiLoop] in H.
  - inversion H; subst. split; [constructor | simpl; lia].
  - rewrite digit_test in H. destruct (isDigit c) eqn:Hc; [| discriminate].
    cbn [negb] in H. rewrite (digit_value _ Hc) in H.
    pose proof (proj1 (isDigit_byteval c) Hc) as Hb.
    assert (0 <= n * 10 + (byteval c - 48)) as Hn' by lia.
    destruct (IH _ _ Hn' H) as [Hall Hr].
    split; [constructor; assumption|].
    cbn [List.length]. rewrite Nat2Z.inj_succ, Z.pow_succ_r by lia.
    set (p := 10 ^ Z.of_nat (List.length s)) in *.
    assert (0 < p) by (apply Z.pow_pos_nonneg; lia).
    nia.
Qed.

Lemma parseUintLoop_result (s : gostring) : forall (n r : Z) (e : option strconv.NumError),
  strconv.parseUintLoop n s = (r, e) ->
  match e with
  | None => Forall (fun c => isDigit c = true) s
  | Some strconv.ErrRange => r = strconv.MaxUint64
  | Some strconv.ErrSyntax => True
  end.
Proof.
  induction s as [| c s IH]; intros n r e H; cbn [strconv.parseUintLoop] in H.
  - inversion H; subst. constructor.
  - destruct (isDigit c) eqn:Hc.
    + destruct (strconv.MaxUint64 / 10 + 1 <=? n).
      { inversion H; subst. reflexivity. }
      destruct (_ || _).
      { inversion H; subst. reflexivity. }
      specialize (IH _ _ _ H). destruct e as [[|]|]; try exact IH.
      constructor; assumption.
    + inversion H; subst. exact I.
Qed.

Lemma digits_signOrDigit (s : gostring) :
  Forall (fun c => isDigit c = true) s -> Forall (fun c => signOrDigit c = true) s.
Proof.
  apply Forall_impl. intros c H. unfold signOrDigit. rewrite H. reflexivity.
Qed.

Lemma atoiFast_Ok (s : gostring) (n : Z) :
  strconv.atoiFast s = strconv.Ok n ->
  Forall (fun c => signOrDigit c = true) s
  /\ Z.abs n < 10 ^ Z.of_nat (List.length s).
Proof.
  unfold strconv.atoiFast. destruct s as [| c0 rest]; [discriminate|].
  destruct (strconv.isSign c0) eqn:Hs.
  - destruct rest as [| c1 rest]; [discriminate|].
    destruct (strconv.atoiLoop 0 (c1 :: rest)) as [r |] eqn:E; [| discriminate].
    intros H. inversion H; subst.
    destruct (atoiLoop_Some _ _ _ (Z.le_refl 0) E) as [Hall Hr].
    split.
    + constructor; [unfold signOrDigit; rewrite Hs; apply orb_true_r|].
      apply digits_signOrDigit. exact Hall.
    + cbn [List.length] in *. rewrite !Nat2Z.inj_succ in *.
      rewrite Z.pow_succ_r by lia. rewrite Z.pow_succ_r in * by lia.
      set (p := 10 ^ Z.of_nat (List.length rest)) in *.
      assert (0 < p) by (apply Z.pow_pos_nonneg; lia).
      destruct (strconv.isMinus c0); nia.
  - destruct (strconv.atoiLoop 0 (c0 :: rest)) as [r |] eqn:E; [| discriminate].
    intros H. inversion H; subst.
    destruct (atoiLoop_Some _ _ _ (Z.le_refl 0) E) as [Hall Hr].
    split; [apply digits_signOrDigit; exact Hall|].
    destruct (strconv.isMinus c0); lia.
Qed.

Lemma ParseInt_Ok (s : gostring) (n : Z) :
  strconv.ParseInt s = strconv.Ok n -> Forall (fun c => signOrDigit c = true) s.
Proof.
  unfold strconv.ParseInt. destruct s as [| c0 rest]; [discriminate|].
  set (s1 := if strconv.isSign c0 then rest else c0 :: rest).
  assert (Forall (fun c => signOrDigit c = true) s1 ->
          Forall (fun c => signOrDigit c = true) (c0 :: rest)) as Hs1.
  { subst s1. destruct (strconv.isSign c0) eqn:Hs; [| tauto].
    intros H. constructor; [| exact H].
    unfold signOrDigit. rewrite Hs. apply orb_true_r. }
  unfold strconv.ParseUint.
  destruct s1 as [| c1 r1] eqn:E1.
  - discriminate.
  - destruct (strconv.parseUintLoop 0 (c1 :: r1)) as [un e] eqn:E.
    pose proof (parseUintLoop_result _ _ _ _ E) as Hres.
    destruct e as [[|]|].
    + discriminate.
    + subst un. destruct (strconv.isMinus c0); cbn; discriminate.
    + intros _. apply Hs1. apply digits_signOrDigit. exact Hres.
Qed.

Lemma Atoi_Ok (s : gostring) (n : Z) :
  strconv.Atoi s = strconv.Ok n ->
  Forall (fun c => signOrDigit c = true) s
  /\ (Z.of_nat (List.length s) < 19 -> Z.abs n < 10 ^ Z.of_nat (List.length s)).
Proof.
  unfold strconv.Atoi.
  destruct (Z.ltb_spec 0 (Z.of_nat (List.length s))) as [H0 | H0];
    destruct (Z.ltb_spec (Z.of_nat (List.length s)) 19) as [H1 | H1];
    cbn [andb]; intros H.
  - destruct (atoiFast_Ok _ _ H). tauto.
  - split; [eapply ParseInt_Ok; eassumption | lia].
  - destruct s; [discriminate | simpl in H0; lia].
  - split; [eapply ParseInt_Ok; eassumption | lia].
Qed.

(** [Atoi] against the unbounded reading: what it returns is the integer
    the string denotes. *)
Lemma atoiLoop_decimalValue (s : gostring) : forall n : Z,
  strconv.atoiLoop n s = decimalValue n s.
Proof.
  induction s as [| c s IH]; intros n; cbn [strconv.atoiLoop decimalValue].
  - reflexivity.
  - rewrite digit_test. destruct (isDigit c) eqn:Hc; cbn [negb].
    + rewrite (digit_value _ Hc). apply IH.
    + reflexivity.
Qed.

Lemma atoiFast_readInteger (s : gostring) (n : Z) :
  strconv.atoiFast s = strconv.Ok n -> readInteger s = Some n.
Proof.
  unfold strconv.atoiFast, readInteger. destruct s as [| c0 rest]; [discriminate|].
  destruct (if strconv.isSign c0 then rest else c0 :: rest) as [| d ds];
    [discriminate|].
  rewrite atoiLoop_decimalValue.
  destruct (decimalValue 0 (d :: ds)); [| discriminate].
  intros H. inversion H. reflexivity.
Qed.

Lemma parseUintLoop_decimalValue (s : gostring) : forall n r : Z,
  0 <= n -> strconv.parseUintLoop n s = (r, None) ->
  decimalValue n s = Some r /\ 0 <= r.
Proof.
  induction s as [| c s IH]; intros n r Hn H;
    cbn [strconv.parseUintLoop decimalValue] in *.
  - inversion H; subst. split; [reflexivity | exact Hn].
  - destruct (isDigit c) eqn:Hc; [| discriminate].
    pose proof (proj1 (isDigit_byteval c) Hc) as Hb.
    destruct (Z.leb_spec (strconv.MaxUint64 / 10 + 1) n) as [Hcut | Hcut];
      [discriminate|].
    change (strconv.MaxUint64 / 10 + 1) with 1844674407370955162 in Hcut.
    unfold Int64.modulus in H.
    assert ((n * 10 + (byteval c - 48)) mod 2 ^ 64 = n * 10 + (byteval c - 48)
            \/ (n * 10 + (byteval c - 48)) mod 2 ^ 64 < n * 10) as Hmod.
    { destruct (Z.lt_ge_cases (n * 10 + (byteval c - 48)) (2 ^ 64)) as [Hlt | Hge].
      - left. apply Z.mod_small. lia.
      - right.
        replace (n * 10 + (byteval c - 48))
          with ((n * 10 + (byteval c - 48) - 2 ^ 64) + 1 * 2 ^ 64) by ring.
        rewrite Z.mod_add by lia. rewrite Z.mod_small; lia. }
    destruct Hmod as [E | Hw].
    + rewrite E in H.
      destruct ((n * 10 + (byteval c - 48) <? n * 10)
                || (strconv.MaxUint64 <? n * 10 + (byteval c - 48)));
        [discriminate|].
      apply IH; [lia | exact H].
    + destruct (Z.ltb_spec ((n * 10 + (byteval c - 48)) mod 2 ^ 64) (n * 10));
        [discriminate | lia].
Qed.

Lemma ParseInt_readInteger (s : gostring) (n : Z) :
  strconv.ParseInt s = strconv.Ok n -> readInteger s = Some n.
Proof.
  unfold strconv.ParseInt, readInteger, strconv.ParseUint.
  destruct s as [| c0 rest]; [discriminate|].
  destruct (if strconv.isSign c0 then rest else c0 :: rest) as [| d ds];
    [discriminate|].
  destruct (strconv.parseUintLoop 0 (d :: ds)) as [un e] eqn:E.
  pose proof (parseUintLoop_result _ _ _ _ E) as Hres.
  destruct e as [[|]|].
  - discriminate.
  - subst un. destruct (strconv.isMinus c0); cbn; discriminate.
  - destruct (parseUintLoop_decimalValue _ _ _ (Z.le_refl 0) E) as [Ev Hun].
    rewrite Ev.
    destruct (strconv.isMinus c0); cbn [negb andb].
    + destruct (Z.ltb_spec (2 ^ 63) un) as [Hbig | Hfit]; [discriminate|].
      intros H. inversion H. f_equal. symmetry.
      destruct (Z.eq_dec un (2 ^ 63)) as [-> | Hne]; [reflexivity|].
      unfold Int64.neg. rewrite (wrap_in_range un) by (int64_bounds; lia).
      apply wrap_in_range. int64_bounds. lia.
    + destruct (Z.leb_spec (2 ^ 63) un) as [Hbig | Hfit]; [discriminate|].
      intros H. inversion H. f_equal. symmetry.
      apply wrap_in_range. int64_bounds. lia.
Qed.

Lemma Atoi_readInteger (s : gostring) (n : Z) :
  strconv.Atoi s = strconv.Ok n -> readInteger s = Some n.
Proof.
  unfold strconv.Atoi. destruct (_ && _).
  - apply atoiFast_readInteger.
  - apply ParseInt_readInteger.
Qed.

(** A text that does not denote a positive integer is refused. *)
Lemma refused_not_positive (s : gostring) :
  denotesPositive s = false -> refused s = true.
Proof.
  unfold denotesPositive, refused.
  destruct (strconv.Atoi s) as [n | v e] eqn:E; [| reflexivity].
  rewrite (Atoi_readInteger _ _ E). intros H.
  apply Z.leb_le. apply Z.ltb_ge. exact H.
Qed.

(** ** Rune starts *)

Lemma runeStarts_nonneg (s : gostring) : 0 <= utf8.runeStarts s.
Proof.
  induction s as [| c s IH]; cbn [utf8.runeStarts]; [lia|].
  destruct (utf8.RuneStart c); lia.
Qed.

Lemma runeStarts_app (a b : gostring) :
  utf8.runeStarts (a ++ b) = utf8.runeStarts a + utf8.runeStarts b.
Proof.
  induction a as [| c a IH]; cbn [utf8.runeStarts app]; [lia|].
  rewrite IH. lia.
Qed.

Lemma signOrDigit_RuneStart (c : byte) :
  signOrDigit c = true -> utf8.RuneStart c = true.
Proof.
  destruct c; intros H; try discriminate H; reflexivity.
Qed.

Lemma runeStarts_ascii (s : gostring) :
  Forall (fun c => signOrDigit c = true) s ->
  utf8.runeStarts s = Z.of_nat (List.length s).
Proof.
  induction 1 as [| c s Hc _ IH]; [reflexivity|].
  cbn [utf8.runeStarts List.length].
  rewrite (signOrDigit_RuneStart _ Hc), IH. lia.
Qed.

(** ** White space trimming *)

Ltac bool_to_prop :=
  unfold strings.space3, strings.space2, strings.asciiSpace, isDigit in *;
  cbv zeta in *;
  repeat rewrite ?andb_true_iff, ?orb_true_iff, ?Z.eqb_eq, ?Z.leb_le in *.

Ltac bool_false :=
  apply not_true_iff_false; intros ?; bool_to_prop; lia.

Lemma space2_head (c1 c2 : byte) :
  strings.space2 c1 c2 = true -> strings.asciiSpace c1 = false.
Proof. intros H. bool_false. Qed.

Lemma space3_head (c1 c2 c3 : byte) :
  strings.space3 c1 c2 c3 = true ->
  strings.asciiSpace c1 = false /\ strings.space2 c1 c2 = false.
Proof. intros H. split; bool_false. Qed.

Lemma space2_last (c1 c2 : byte) :
  strings.space2 c1 c2 = true -> strings.asciiSpace c2 = false.
Proof. intros H. bool_false. Qed.

Lemma space3_last (c1 c2 c3 : byte) :
  strings.space3 c1 c2 c3 = true ->
  strings.asciiSpace c3 = false /\ strings.space2 c2 c3 = false.
Proof. intros H. split; bool_false. Qed.

Lemma digit_not_space (c : byte) :
  isDigit c = true ->
  strings.asciiSpace c = false
  /\ (forall c2, strings.space2 c c2 = false)
  /\ (forall c2 c3, strings.space3 c c2 c3 = false)
  /\ (forall c1, strings.space2 c1 c = false)
  /\ (forall c1 c2, strings.space3 c1 c2 c = false).
Proof.
  intros H. repeat split; intros; bool_false.
Qed.

Lemma TrimLeftSpace_digit (c : byte) (r : gostring) :
  isDigit c = true -> strings.TrimLeftSpace (c :: r) = c :: r.
Proof.
  intros H. destruct (digit_not_space c H) as (H1 & H2 & H3 & _).
  destruct r as [| c2 [| c3 r3]]; cbn [strings.TrimLeftSpace];
    rewrite ?H1, ?H2, ?H3; reflexivity.
Qed.

Lemma trimRev_digit (c : byte) (r : gostring) :
  isDigit c = true -> strings.trimRev (c :: r) = c :: r.
Proof.
  intros H. destruct (digit_not_space c H) as (H1 & _ & _ & H4 & H5).
  destruct r as [| c2 [| c3 r3]]; cbn [strings.trimRev];
    rewrite ?H1, ?H4, ?H5; reflexivity.
Qed.

Lemma TrimLeftSpace_spaces (ws s : gostring) :
  spaces ws -> strings.TrimLeftSpace (ws ++ s) = strings.TrimLeftSpace s.
Proof.
  induction 1 as [| c r Hc _ IH | c1 c2 r Hc _ IH | c1 c2 c3 r Hc _ IH].
  - reflexivity.
  - cbn [app strings.TrimLeftSpace]. rewrite Hc. exact IH.
  - cbn [app strings.TrimLeftSpace].
    rewrite (space2_head _ _ Hc), Hc. exact IH.
  - cbn [app strings.TrimLeftSpace].
    destruct (space3_head _ _ _ Hc) as [H1 H2].
    rewrite H1, H2, Hc. exact IH.
Qed.

Lemma trimRev_spaces (ws : gostring) :
  spaces ws -> forall y, strings.trimRev (rev ws ++ y) = strings.trimRev y.
Proof.
  induction 1 as [| c r Hc _ IH | c1 c2 r Hc _ IH | c1 c2 c3 r Hc _ IH];
    intros y.
  - reflexivity.
  - cbn [rev]. rewrite <- app_assoc, IH.
    cbn [app strings.trimRev]. rewrite Hc. reflexivity.
  - change (c1 :: c2 :: r) with ([c1; c2] ++ r).
    rewrite rev_app_distr, <- app_assoc, IH.
    cbn [rev app strings.trimRev].
    rewrite (space2_last _ _ Hc), Hc. reflexivity.
  - change (c1 :: c2 :: c3 :: r) with ([c1; c2; c3] ++ r).
    rewrite rev_app_distr, <- app_assoc, IH.
    cbn [rev app strings.trimRev].
    destruct (space3_last _ _ _ Hc) as [H1 H2].
    rewrite H1, H2, Hc. reflexivity.
Qed.

(** Trimming removes the white space around a numeral, and nothing else. *)
Lemma TrimSpace_around_digits (ws1 ws2 ds : gostring) :
  spaces ws1 -> spaces ws2 ->
  Forall (fun c => isDigit c = true) ds -> ds <> [] ->
  strings.TrimSpace (ws1 ++ ds ++ ws2) = ds.
Proof.
  intros H1 H2 Hd Hne. unfold strings.TrimSpace, strings.TrimRightSpace.
  rewrite TrimLeftSpace_spaces by exact H1.
  destruct ds as [| c ds']; [congruence|].
  inversion Hd as [| ? ? Hc Hd']; subst.
  cbn [app]. rewrite TrimLeftSpace_digit by exact Hc.
  change (c :: ds' ++ ws2) with ((c :: ds') ++ ws2).
  rewrite rev_app_distr, trimRev_spaces by exact H2.
  assert (exists d r, rev (c :: ds') = d :: r /\ isDigit d = true) as (d & r & Er & Hdg).
  { destruct (rev (c :: ds')) as [| d r] eqn:E.
    - apply (f_equal (@rev byte)) in E. rewrite rev_involutive in E. discriminate.
    - exists d, r. split; [reflexivity|].
      assert (In d (c :: ds')) as Hin.
      { apply in_rev. rewrite E. left. reflexivity. }
      exact (proj1 (Forall_forall _ _) Hd d Hin). }
  rewrite Er, trimRev_digit by exact Hdg.
  rewrite <- Er. apply rev_involutive.
Qed.

Lemma TrimSpace_spaces (ws : gostring) : spaces ws -> strings.TrimSpace ws = [].
Proof.
  intros H. unfold strings.TrimSpace.
  rewrite <- (app_nil_r ws), TrimLeftSpace_spaces by exact H. reflexivity.
Qed.

Lemma TrimLeftSpace_suffix (n : nat) : forall s : gostring,
  (List.length s <= n)%nat -> exists a, s = a ++ strings.TrimLeftSpace s.
Proof.
  induction n as [| n IH]; intros s Hn.
  - destruct s; [exists []; reflexivity | simpl in Hn; lia].
  - destruct s as [| c1 r1]; [exists []; reflexivity|].
    cbn [strings.TrimLeftSpace List.length] in *.
    destruct (strings.asciiSpace c1).
    { destruct (IH r1 ltac:(lia)) as [a Ha]. exists (c1 :: a).
      cbn [app]. rewrite <- Ha. reflexivity. }
    destruct r1 as [| c2 r2]; [exists []; reflexivity|].
    cbn [List.length] in Hn.
    destruct (strings.space2 c1 c2).
    { destruct (IH r2 ltac:(lia)) as [a Ha]. exists (c1 :: c2 :: a).
      cbn [app]. rewrite <- Ha. reflexivity. }
    destruct r2 as [| c3 r3]; [exists []; reflexivity|].
    cbn [List.length] in Hn.
    destruct (strings.space3 c1 c2 c3); [| exists []; reflexivity].
    destruct (IH r3 ltac:(lia)) as [a Ha]. exists (c1 :: c2 :: c3 :: a).
    cbn [app]. rewrite <- Ha. reflexivity.
Qed.

Lemma trimRev_suffix (n : nat) : forall s : gostring,
  (List.length s <= n)%nat -> exists a, s = a ++ strings.trimRev s.
Proof.
  induction n as [| n IH]; intros s Hn.
  - destruct s; [exists []; reflexivity | simpl in Hn; lia].
  - destruct s as [| c1 r1]; [exists []; reflexivity|].
    cbn [strings.trimRev List.length] in *.
    destruct (strings.asciiSpace c1).
    { destruct (IH r1 ltac:(lia)) as [a Ha]. exists (c1 :: a).
      cbn [app]. rewrite <- Ha. reflexivity. }
    destruct r1 as [| c2 r2]; [exists []; reflexivity|].
    cbn [List.length] in Hn.
    destruct (strings.space2 c2 c1).
    { destruct (IH r2 ltac:(lia)) as [a Ha]. exists (c1 :: c2 :: a).
      cbn [app]. rewrite <- Ha. reflexivity. }
    destruct r2 as [| c3 r3]; [exists []; reflexivity|].
    cbn [List.length] in Hn.
    destruct (strings.space3 c3 c2 c1); [| exists []; reflexivity].
    destruct (IH r3 ltac:(lia)) as [a Ha]. exists (c1 :: c2 :: c3 :: a).
    cbn [app]. rewrite <- Ha. reflexivity.
Qed.

(** The trimmed string is a piece of the string. *)
Lemma TrimSpace_infix (s : gostring) :
  exists a b, s = a ++ strings.TrimSpace s ++ b.
Proof.
  destruct (TrimLeftSpace_suffix _ s (le_n _)) as [a Ha].
  destruct (trimRev_suffix _ (rev (strings.TrimLeftSpace s)) (le_n _)) as [b Hb].
  exists a, (rev b). unfold strings.TrimSpace, strings.TrimRightSpace.
  rewrite <- rev_app_distr, <- Hb, rev_involutive. exact Ha.
Qed.

Lemma runeStarts_TrimSpace (s : gostring) :
  utf8.runeStarts (strings.TrimSpace s) <= utf8.runeStarts s.
Proof.
  destruct (TrimSpace_infix s) as (a & b & E).
  rewrite E at 2. rewrite !runeStarts_app.
  pose proof (runeStarts_nonneg a). pose proof (runeStarts_nonneg b). lia.
Qed.

(** A text of at most [CharLimit] runes that [Atoi] accepts after
    trimming is a number below [10^5]. *)
Lemma Atoi_within_limit (v : gostring) (n : Z) :
  utf8.runeStarts v <= CharLimit ->
  strconv.Atoi (strings.TrimSpace v) = strconv.Ok n ->
  Z.abs n < 100000.
Proof.
  intros Hv H. destruct (Atoi_Ok _ _ H) as [Hall Hlt].
  pose proof (runeStarts_TrimSpace v) as Ht.
  rewrite (runeStarts_ascii _ Hall) in Ht. unfold CharLimit in Hv.
  specialize (Hlt ltac:(lia)).
  assert (10 ^ Z.of_nat (List.length (strings.TrimSpace v)) <= 10 ^ 5).
  { apply Z.pow_le_mono_r; lia. }
  change (10 ^ 5) with 100000 in *. lia.
Qed.

(** ** [fmt.Sprintf("%02d", x)] *)

Lemma Sprintf02d_nonneg (x : Z) :
  0 <= x ->
  fmt.Sprintf02d x =
  repeat (byte_of_Z 48) (2 - List.length (strconv.formatDigits x))
  ++ strconv.formatDigits x.
Proof.
  intros H. unfold fmt.Sprintf02d.
  destruct (Z.ltb_spec x 0); [lia | reflexivity].
Qed.

Lemma Sprintf02d_value (x : Z) :
  0 <= x < 10 ^ 20 -> strconv.atoiLoop 0 (fmt.Sprintf02d x) = Some x.
Proof.
  intros H. rewrite Sprintf02d_nonneg by lia.
  rewrite atoiLoop_app, atoiLoop_zeros. apply formatDigits_value. exact H.
Qed.

Lemma Sprintf02d_digits (x : Z) :
  0 <= x -> Forall (fun c => isDigit c = true) (fmt.Sprintf02d x).
Proof.
  intros H. rewrite Sprintf02d_nonneg by lia. apply Forall_app. split.
  - apply Forall_forall. intros c Hc. apply repeat_spec in Hc. subst c.
    reflexivity.
  - apply formatDigits_digits. exact H.
Qed.

Lemma Sprintf02d_length (x : Z) :
  0 <= x < 10 ^ 20 ->
  (2 <= List.length (fmt.Sprintf02d x))%nat
  /\ (x < 100 -> List.length (fmt.Sprintf02d x) = 2%nat).
Proof.
  intros H. rewrite Sprintf02d_nonneg by lia.
  rewrite length_app, repeat_length.
  pose proof (formatDigits_length x 20 ltac:(lia) H) as H20.
  split; [lia|]. intros H100.
  pose proof (formatDigits_length x 2 ltac:(lia) ltac:(simpl; lia)). lia.
Qed.

(** ** [formatDuration] on whole seconds *)

Lemma quo_seconds (a b : Z) :
  0 <= a -> 0 < b -> a * time.Second <= time.maxDuration ->
  Int64.quo (a * time.Second) (b * time.Second) = a / b.
Proof.
  intros Ha Hb Hmax. unfold Int64.quo.
  rewrite Z.quot_div_nonneg by (unfold time.Second; lia).
  rewrite Z.div_mul_cancel_r by (unfold time.Second; lia).
  apply wrap_in_range.
  assert (0 <= a / b <= a).
  { split; [apply Z.div_pos; lia|].
    apply Z.div_le_upper_bound; [lia | nia]. }
  int64_bounds. lia.
Qed.

Lemma sub_mul_seconds (a q b : Z) :
  0 <= a -> a * time.Second <= time.maxDuration -> 0 <= q * b <= a ->
  Int64.sub (a * time.Second) (Int64.mul q (b * time.Second)) =
  (a - q * b) * time.Second.
Proof.
  intros Ha Hmax Hq. unfold Int64.sub, Int64.mul.
  assert (Int64.in_range (q * (b * time.Second))) as H1.
  { int64_bounds. lia. }
  rewrite (wrap_in_range _ H1).
  replace (a * time.Second - q * (b * time.Second))
    with ((a - q * b) * time.Second) by ring.
  apply wrap_in_range.
  int64_bounds. lia.
Qed.

Lemma Round_seconds (s : Z) :
  0 <= s -> s * time.Second <= time.maxDuration ->
  time.Round (s * time.Second) time.Second = s * time.Second.
Proof.
  intros Hs Hmax. unfold time.Round.
  change (time.Second <=? 0) with false. cbv iota.
  unfold Int64.rem. rewrite Z.rem_mul by discriminate.
  destruct (Z.ltb_spec (s * time.Second) 0) as [Hn | _].
  { unfold time.Second in Hn. lia. }
  change (time.lessThanHalf 0 time.Second) with true. cbv iota.
  unfold Int64.sub. rewrite Z.sub_0_r. apply wrap_in_range.
  int64_bounds. lia.
Qed.

Lemma formatDuration_seconds (s : Z) :
  0 <= s -> s * time.Second <= time.maxDuration ->
  formatDuration (s * time.Second) =
  if s <? 3600 then
    fmt.Sprintf02d (s / 60 mod 60) ++ str ":" ++ fmt.Sprintf02d (s mod 60)
  else
    fmt.Sprintf02d (s / 3600) ++ str ":" ++ fmt.Sprintf02d (s / 60 mod 60)
    ++ str ":" ++ fmt.Sprintf02d (s mod 60).
Proof.
  intros Hs Hmax. unfold formatDuration.
  rewrite Round_seconds by assumption.
  replace time.Hour with (3600 * time.Second) by (unfold time.Hour, time.Minute; ring).
  replace time.Minute with (60 * time.Second) by reflexivity.
  rewrite (quo_seconds s 3600) by (assumption || lia).
  assert (0 <= s / 3600 * 3600 <= s) as H1.
  { pose proof (Z.div_mod s 3600 ltac:(lia)).
    pose proof (Z.mod_pos_bound s 3600 ltac:(lia)).
    pose proof (Z.div_pos s 3600 Hs ltac:(lia)). lia. }
  rewrite (sub_mul_seconds s (s / 3600) 3600) by assumption.
  assert (s - s / 3600 * 3600 = s mod 3600) as ->.
  { pose proof (Z.div_mod s 3600 ltac:(lia)). lia. }
  pose proof (Z.mod_pos_bound s 3600 ltac:(lia)) as Hm.
  assert (s mod 3600 * time.Second <= time.maxDuration) as Hmax'.
  { int64_bounds. lia. }
  rewrite (quo_seconds (s mod 3600) 60) by (assumption || lia).
  assert (0 <= s mod 3600 / 60 * 60 <= s mod 3600) as H2.
  { pose proof (Z.div_mod (s mod 3600) 60 ltac:(lia)).
    pose proof (Z.mod_pos_bound (s mod 3600) 60 ltac:(lia)).
    pose proof (Z.div_pos (s mod 3600) 60 ltac:(lia) ltac:(lia)). lia. }
  rewrite (sub_mul_seconds (s mod 3600) (s mod 3600 / 60) 60) by (assumption || lia).
  assert (s mod 3600 / 60 = s / 60 mod 60) as E1.
  { Z.div_mod_to_equations. lia. }
  assert (s mod 3600 - s mod 3600 / 60 * 60 = s mod 60) as E2.
  { Z.div_mod_to_equations. lia. }
  rewrite E2, E1.
  pose proof (Z.mod_pos_bound s 60 ltac:(lia)) as Hm60.
  assert (Int64.quo (s mod 60 * time.Second) time.Second = s mod 60) as Hq.
  { pose proof (quo_seconds (s mod 60) 1) as Hq.
    rewrite Z.mul_1_l, Z.div_1_r in Hq. apply Hq; try lia.
    int64_bounds. lia. }
  rewrite !Hq.
  destruct (Z.ltb_spec 0 (s / 3600)) as [Hh | Hh];
    destruct (Z.ltb_spec s 3600) as [Hlt | Hge]; try reflexivity; exfalso.
  - rewrite Z.div_small in Hh by lia. lia.
  - pose proof (Z.div_le_mono 3600 s 3600 ltac:(lia) Hge) as Hd.
    rewrite Z.div_same in Hd by lia. lia.
Qed.

(** ** The reducer *)

Lemma wrap_le (x : Z) : Int64.MinInt64 <= x -> Int64.wrap x <= x.
Proof.
  intros H. unfold Int64.wrap. int64_bounds.
  pose proof (Z.mod_le (x + 2 ^ 63) (2 ^ 64) ltac:(lia) ltac:(lia)). lia.
Qed.

Section Session.

Context {T : Type} `{TI : TextInput T}.

Implicit Types (m : model T) (k : tea.Key) (msg : Msg).

Lemma Update_enter m k :
  tea.Type_ k = tea.KeyEnter -> state m = inputtingTime ->
  Update m (KeyMsg k) = submit m.
Proof.
  intros Hk Hs. unfold Update. rewrite Hk, Hs. reflexivity.
Qed.

Lemma submit_refused m :
  refused (strings.TrimSpace (Value (textInput m))) = true ->
  submit m = (set_err m errInvalid, nilCmd).
Proof.
  unfold refused, submit.
  destruct (strconv.Atoi _) as [n | v e]; [| reflexivity].
  intros ->. reflexivity.
Qed.

Lemma submit_accepted m (n : Z) :
  strconv.Atoi (strings.TrimSpace (Value (textInput m))) = strconv.Ok n ->
  0 < n ->
  submit m =
  ({| textInput := textInput m; state := running;
      duration := Int64.mul n time.Minute;
      timeRemaining := Int64.mul n time.Minute;
      progress := progress m; done := done m; err := [] |}, nilCmd).
Proof.
  intros E Hn. unfold submit. rewrite E.
  destruct (Z.leb_spec n 0); [lia | reflexivity].
Qed.

Lemma mul_minutes (n : Z) :
  0 <= n <= maxMinutes -> Int64.mul n time.Minute = n * time.Minute.
Proof.
  intros H. unfold Int64.mul. apply wrap_in_range.
  unfold maxMinutes in H. int64_bounds. lia.
Qed.

(** Submitting white space, a numeral, white space. *)
Lemma submit_numeral m (n : Z) (ws1 ws2 : gostring) :
  spaces ws1 -> spaces ws2 -> 0 < n <= maxMinutes ->
  Value (textInput m) = ws1 ++ strconv.Itoa n ++ ws2 ->
  submit m =
  ({| textInput := textInput m; state := running;
      duration := n * time.Minute; timeRemaining := n * time.Minute;
      progress := progress m; done := done m; err := [] |}, nilCmd).
Proof.
  intros H1 H2 Hn Hv.
  assert (strconv.Itoa n = strconv.formatDigits n) as EI.
  { unfold strconv.Itoa. destruct (Z.ltb_spec n 0); [lia | reflexivity]. }
  assert (0 <= n < 10 ^ 18) as Hn18 by (unfold maxMinutes in Hn; lia).
  assert (strings.TrimSpace (Value (textInput m)) = strconv.Itoa n) as Et.
  { rewrite Hv. apply TrimSpace_around_digits; try assumption.
    - rewrite EI. apply formatDigits_digits. lia.
    - rewrite EI. intros E.
      pose proof (formatDigits_length n 18 ltac:(lia) Hn18) as Hl.
      rewrite E in Hl. simpl in Hl. lia. }
  rewrite (submit_accepted m n).
  - rewrite mul_minutes by lia. reflexivity.
  - rewrite Et. apply Atoi_Itoa. exact Hn18.
  - lia.
Qed.

(** In any state of the input phase, a session's or not: for every
    integer [n] from 1 to 153722867, the largest count of minutes that
    fits a 64-bit duration, confirming a buffer that holds the decimal
    numeral of [n] moves to the running phase with the total duration and
    the remaining time both [n] minutes and the validation error empty. *)
Theorem confirm_numeral_starts_timer m k (n : Z) :
  tea.Type_ k = tea.KeyEnter ->
  state m = inputtingTime ->
  Value (textInput m) = strconv.Itoa n ->
  0 < n <= maxMinutes ->
  state (fst (Update m (KeyMsg k))) = running
  /\ duration (fst (Update m (KeyMsg k))) = n * time.Minute
  /\ timeRemaining (fst (Update m (KeyMsg k))) = n * time.Minute
  /\ err (fst (Update m (KeyMsg k))) = [].
Proof.
  intros Hk Hs Hv Hn. rewrite (Update_enter m k Hk Hs).
  rewrite (submit_numeral m n [] []).
  - repeat split.
  - constructor.
  - constructor.
  - exact Hn.
  - rewrite app_nil_r. exact Hv.
Qed.

(** C3: when the content of the buffer is not a positive integer (it does
    not read as an integer, or the integer is zero or negative), confirming
    in the input phase keeps the phase and the buffer and sets the
    validation error to the fixed message. *)
Theorem confirm_invalid_sets_error m k :
  tea.Type_ k = tea.KeyEnter ->
  state m = inputtingTime ->
  denotesPositive (strings.TrimSpace (Value (textInput m))) = false ->
  state (fst (Update m (KeyMsg k))) = inputtingTime
  /\ textInput (fst (Update m (KeyMsg k))) = textInput m
  /\ err (fst (Update m (KeyMsg k))) = str "Please enter a valid positive number"
  /\ duration (fst (Update m (KeyMsg k))) = duration m
  /\ timeRemaining (fst (Update m (KeyMsg k))) = timeRemaining m.
Proof.
  intros Hk Hs Hr. rewrite (Update_enter m k Hk Hs).
  rewrite (submit_refused m (refused_not_positive _ Hr)). cbn. auto.
Qed.

(** In any state of the input phase, a session's or not: the submitted
    text is trimmed before it is parsed.  For every integer [n] from 1 to
    153722867, a buffer made of white space, the decimal numeral of [n]
    and white space starts the timer with [n] minutes, and the new state
    is the one the bare numeral gives; a buffer of white space only is
    refused. *)
Theorem confirm_trims_whitespace m k (n : Z) (ws1 ws2 : gostring) :
  tea.Type_ k = tea.KeyEnter ->
  state m = inputtingTime ->
  spaces ws1 -> spaces ws2 ->
  (0 < n <= maxMinutes ->
   Value (textInput m) = ws1 ++ strconv.Itoa n ++ ws2 ->
   state (fst (Update m (KeyMsg k))) = running
   /\ duration (fst (Update m (KeyMsg k))) = n * time.Minute
   /\ timeRemaining (fst (Update m (KeyMsg k))) = n * time.Minute
   /\ err (fst (Update m (KeyMsg k))) = []
   /\ forall m0, state m0 = inputtingTime ->
        Value (textInput m0) = strconv.Itoa n ->
        set_textInput (fst (Update m (KeyMsg k))) (textInput m0) =
        fst (Update (set_textInput m (textInput m0)) (KeyMsg k)))
  /\ (Value (textInput m) = ws1 ->
      state (fst (Update m (KeyMsg k))) = inputtingTime
      /\ err (fst (Update m (KeyMsg k))) = errInvalid).
Proof.
  intros Hk Hs H1 H2. rewrite (Update_enter m k Hk Hs). split.
  - intros Hn Hv. rewrite (submit_numeral m n ws1 ws2) by assumption.
    repeat split. intros m0 Hs0 Hv0.
    rewrite (Update_enter (set_textInput m (textInput m0)) k Hk Hs).
    rewrite (submit_numeral (set_textInput m (textInput m0)) n [] []).
    + reflexivity.
    + constructor.
    + constructor.
    + exact Hn.
    + cbn. rewrite app_nil_r. exact Hv0.
  - intros Hv. rewrite submit_refused.
    + cbn. auto.
    + rewrite Hv, (TrimSpace_spaces _ H1). reflexivity.
Qed.

(** C9: whatever the state, a tick message is answered with the command
    that schedules the next tick one second later. *)
Theorem tick_rearms m (t : time.Time) :
  snd (Update m (tickMsg t)) = tickEverySecond
  /\ tickEverySecond = Tick time.Second tickMsg
  /\ time.Second = 1000000000 * time.Nanosecond.
Proof.
  repeat split.
Qed.

Lemma tick_cases m (t : time.Time) :
  (state m = running /\ 0 < timeRemaining m
   /\ let r := Int64.sub (timeRemaining m) time.Second in
      step m (tickMsg t) =
      if r <=? 0 then set_done (set_timeRemaining (set_timeRemaining m r) 0) true
      else set_timeRemaining m r)
  \/ ((state m = inputtingTime \/ timeRemaining m <= 0)
      /\ step m (tickMsg t) = m).
Proof.
  unfold step, Update, tick.
  destruct (state m) eqn:Hs; cbn [inputState_eqb andb].
  - right. split; [left|]; reflexivity.
  - destruct (Z.ltb_spec 0 (timeRemaining m)) as [Hp | Hp].
    + left. repeat split; try assumption.
    + right. split; [right; exact Hp | reflexivity].
Qed.

Lemma tick_state m (t : time.Time) : state (step m (tickMsg t)) = state m.
Proof.
  destruct (tick_cases m t) as [(_ & _ & E) | [_ E]]; rewrite E;
    [| reflexivity].
  cbv zeta. destruct (_ <=? 0); reflexivity.
Qed.

Lemma tick_remaining m (t : time.Time) :
  timeRemaining (step m (tickMsg t)) <= timeRemaining m
  /\ (0 <= timeRemaining m -> 0 <= timeRemaining (step m (tickMsg t))).
Proof.
  destruct (tick_cases m t) as [(_ & Hp & E) | [_ E]]; rewrite E;
    [| lia].
  cbv zeta.
  assert (Int64.sub (timeRemaining m) time.Second <= timeRemaining m) as Hle.
  { unfold Int64.sub.
    pose proof (wrap_le (timeRemaining m - time.Second)) as Hw.
    int64_bounds. lia. }
  destruct (Z.leb_spec (Int64.sub (timeRemaining m) time.Second) 0); cbn; lia.
Qed.

Lemma run_app m (l1 l2 : list Msg) : run m (l1 ++ l2) = run (run m l1) l2.
Proof. apply fold_left_app. Qed.

Lemma ticks_state m (ts : list time.Time) :
  state (run m (map tickMsg ts)) = state m.
Proof.
  revert m. induction ts as [| t ts IH]; intros m; [reflexivity|].
  cbn [map run fold_left]. change (fold_left step ?l ?x) with (run x l).
  rewrite IH. apply tick_state.
Qed.

Lemma ticks_nonneg m (ts : list time.Time) :
  0 <= timeRemaining m -> 0 <= timeRemaining (run m (map tickMsg ts)).
Proof.
  revert m. induction ts as [| t ts IH]; intros m H; [exact H|].
  cbn [map run fold_left]. change (fold_left step ?l ?x) with (run x l).
  apply IH. apply tick_remaining. exact H.
Qed.

(** C7: along any sequence of ticks from a running state, the remaining
    time after one more tick is at most what it was before, the phase
    stays running, and a remaining time that is not negative never
    becomes negative. *)
Theorem ticks_remaining_monotone m (ts : list time.Time) (t : time.Time) :
  state m = running ->
  timeRemaining (run m (map tickMsg (ts ++ [t])))
    <= timeRemaining (run m (map tickMsg ts))
  /\ state (run m (map tickMsg ts)) = running
  /\ (0 <= timeRemaining m -> 0 <= timeRemaining (run m (map tickMsg ts))).
Proof.
  intros Hs. repeat split.
  - rewrite map_app, run_app. cbn [map run fold_left].
    apply tick_remaining.
  - rewrite ticks_state. exact Hs.
  - apply ticks_nonneg.
Qed.

(** C8: in a running state with no time remaining and the completion
    flag set, ticks change nothing: after any number of them the
    remaining time is still zero and the flag still set. *)
Theorem ticks_after_completion m (ts : list time.Time) :
  state m = running -> timeRemaining m = 0 -> done m = true ->
  run m (map tickMsg ts) = m
  /\ timeRemaining (run m (map tickMsg ts)) = 0
  /\ done (run m (map tickMsg ts)) = true.
Proof.
  intros Hs Hr Hd.
  assert (run m (map tickMsg ts) = m) as E.
  { induction ts as [| t ts IH]; [reflexivity|].
    cbn [map run fold_left].
    destruct (tick_cases m t) as [(_ & Hp & _) | [_ E]]; [lia|].
    rewrite E. exact IH. }
  rewrite E. auto.
Qed.

(** *** The validation error *)

Lemma forward_fields m msg :
  err (fst (forward m msg)) = err m
  /\ state (fst (forward m msg)) = state m
  /\ duration (fst (forward m msg)) = duration m
  /\ timeRemaining (fst (forward m msg)) = timeRemaining m
  /\ done (fst (forward m msg)) = done m.
Proof.
  unfold forward. destruct (state m) eqn:Hs.
  - destruct (widgetUpdate (textInput m) msg) as [ti cmd]. cbn. auto.
  - cbn. auto.
Qed.

Lemma tick_err m (t : time.Time) : err (step m (tickMsg t)) = err m.
Proof.
  destruct (tick_cases m t) as [(_ & _ & E) | [_ E]]; rewrite E;
    [| reflexivity].
  cbv zeta. destruct (_ <=? 0); reflexivity.
Qed.

Lemma not_refused (input : gostring) :
  refused input = false -> exists n, strconv.Atoi input = strconv.Ok n /\ 0 < n.
Proof.
  unfold refused. destruct (strconv.Atoi input) as [n | v e]; [| discriminate].
  intros H. exists n. split; [reflexivity|]. apply Z.leb_gt. exact H.
Qed.

(** C5 (as amended): the validation error is cleared by one event only,
    a successful submission.  Every other message leaves it as it is,
    text typed into the buffer included, except that a refused
    submission sets it to the fixed message again. *)
Theorem error_cleared_only_by_submission m msg :
  (err (step m msg) = err m
   \/ exists k, msg = KeyMsg k /\ tea.Type_ k = tea.KeyEnter
        /\ state m = inputtingTime
        /\ if refused (strings.TrimSpace (Value (textInput m)))
           then err (step m msg) = errInvalid
                /\ state (step m msg) = inputtingTime
           else err (step m msg) = [] /\ state (step m msg) = running)
  /\ (forall runes, err (step m (key tea.KeyRunes runes)) = err m)
  /\ (forall runes, err (step m (key tea.KeyBackspace runes)) = err m).
Proof.
  split; [| split; intros runes; apply forward_fields].
  destruct msg as [k | t | tag].
  - destruct (tea.Type_ k) eqn:Hk; unfold step, Update; rewrite Hk;
      try (left; reflexivity); try (left; apply forward_fields).
    destruct (state m) eqn:Hs; [| left; apply forward_fields].
    right. exists k. repeat split; try assumption.
    destruct (refused _) eqn:Hr.
    + rewrite (submit_refused m Hr). cbn. auto.
    + destruct (not_refused _ Hr) as (n & E & Hn).
      rewrite (submit_accepted m n E Hn). cbn. auto.
  - left. apply tick_err.
  - left. apply forward_fields.
Qed.

(** *** The invariant *)

Lemma initialModel_invariant : invariant initialModel.
Proof.
  constructor; cbn; try (intros; lia); try discriminate.
  rewrite Value_New. cbn. unfold CharLimit. lia.
Qed.

Lemma forward_invariant m msg : invariant m -> invariant (fst (forward m msg)).
Proof.
  intros Hinv. unfold forward.
  destruct (state m) eqn:Hs; [| exact Hinv].
  destruct Hinv as [H1 H2 H3 H4 H5 H6].
  pose proof (widgetUpdate_limit (textInput m) msg H1) as Hl.
  destruct (widgetUpdate (textInput m) msg) as [ti cmd].
  constructor; cbn in *; try assumption; rewrite Hs; assumption.
Qed.

Lemma submit_invariant m :
  state m = inputtingTime -> invariant m -> invariant (fst (submit m)).
Proof.
  intros Hs [H1 H2 H3 H4 H5 H6].
  destruct (refused (strings.TrimSpace (Value (textInput m)))) eqn:Hr.
  - rewrite (submit_refused m Hr). constructor; assumption.
  - destruct (not_refused _ Hr) as (n & E & Hn).
    pose proof (Atoi_within_limit _ _ H1 E) as Hlim.
    rewrite (submit_accepted m n E Hn).
    rewrite mul_minutes by (unfold maxMinutes; lia).
    destruct (H5 Hs) as (_ & _ & Hd).
    constructor; cbn; try assumption; try discriminate.
    + int64_bounds. lia.
    + int64_bounds. lia.
    + rewrite Hd. discriminate.
    + intros _. int64_bounds. lia.
Qed.

Lemma tick_invariant m (t : time.Time) :
  invariant m -> invariant (step m (tickMsg t)).
Proof.
  intros Hinv. destruct (tick_cases m t) as [(Hs & Hp & E) | [_ E]];
    rewrite E; [| exact Hinv].
  destruct Hinv as [H1 H2 H3 H4 H5 H6]. cbv zeta.
  assert (Int64.sub (timeRemaining m) time.Second
          = timeRemaining m - time.Second) as Esub.
  { unfold Int64.sub. apply wrap_in_range. int64_bounds. lia. }
  rewrite Esub.
  destruct (Z.leb_spec (timeRemaining m - time.Second) 0) as [Hz | Hz];
    constructor; cbn; try assumption; try lia;
    try (rewrite Hs; discriminate).
  - int64_bounds. lia.
  - intros Hd. specialize (H4 Hd). lia.
Qed.

Lemma step_invariant m msg : invariant m -> invariant (step m msg).
Proof.
  intros Hinv. destruct msg as [k | t | tag].
  - unfold step, Update.
    destruct (tea.Type_ k) eqn:Hk; try (apply forward_invariant; exact Hinv);
      try exact Hinv.
    destruct (state m) eqn:Hs.
    + apply submit_invariant; assumption.
    + apply forward_invariant. exact Hinv.
  - apply tick_invariant. exact Hinv.
  - apply forward_invariant. exact Hinv.
Qed.

Lemma reachable_invariant m : reachable m -> invariant m.
Proof.
  induction 1 as [| m msg _ IH].
  - apply initialModel_invariant.
  - apply step_invariant. exact IH.
Qed.

(** The total duration is written by a successful submission only. *)
Lemma step_duration m msg :
  duration (step m msg) = duration m
  \/ (state m = inputtingTime /\ state (step m msg) = running).
Proof.
  destruct msg as [k | t | tag].
  - unfold step, Update.
    destruct (tea.Type_ k) eqn:Hk; try (left; apply forward_fields);
      try (left; reflexivity).
    destruct (state m) eqn:Hs; [| left; apply forward_fields].
    destruct (refused (strings.TrimSpace (Value (textInput m)))) eqn:Hr.
    + left. rewrite (submit_refused m Hr). reflexivity.
    + right. destruct (not_refused _ Hr) as (n & E & Hn).
      rewrite (submit_accepted m n E Hn). split; reflexivity.
  - left. destruct (tick_cases m t) as [(_ & _ & E) | [_ E]]; rewrite E;
      [| reflexivity].
    cbv zeta. destruct (_ <=? 0); reflexivity.
  - left. apply forward_fields.
Qed.

Lemma step_running m msg :
  state m = running ->
  state (step m msg) = running /\ duration (step m msg) = duration m.
Proof.
  intros Hs. split.
  - destruct msg as [k | t | tag].
    + unfold step, Update.
      destruct (tea.Type_ k) eqn:Hk; try exact Hs;
        try (rewrite Hs); try exact Hs;
        destruct (forward_fields m (KeyMsg k)) as (_ & E & _);
        rewrite E; exact Hs.
    + rewrite tick_state. exact Hs.
    + destruct (forward_fields m (otherMsg tag)) as (_ & E & _).
      unfold step, Update. rewrite E. exact Hs.
  - destruct (step_duration m msg) as [E | [E _]]; [exact E | congruence].
Qed.

Lemma run_running m (msgs : list Msg) :
  state m = running ->
  state (run m msgs) = running /\ duration (run m msgs) = duration m.
Proof.
  revert m. induction msgs as [| msg msgs IH]; intros m Hs; [auto|].
  cbn [run fold_left]. change (fold_left step ?l ?x) with (run x l).
  destruct (step_running m msg Hs) as [Hs' Hd'].
  destruct (IH _ Hs') as [Hs2 Hd2]. split; congruence.
Qed.

(** C6: every state reached from the initial one, under any messages,
    has its remaining time between zero and the total duration, has no
    time remaining when the completion flag is set, and has both time
    spans zero in the input phase; a step changes the total duration
    only when it leaves the input phase for the running phase, and from
    a running state on the total duration stays what it is. *)
Theorem reachable_state_invariants m :
  reachable m ->
  0 <= timeRemaining m <= duration m
  /\ (done m = true -> timeRemaining m = 0)
  /\ (state m = inputtingTime -> duration m = 0 /\ timeRemaining m = 0)
  /\ (forall msg, duration (step m msg) <> duration m ->
        state m = inputtingTime /\ state (step m msg) = running)
  /\ (state m = running -> forall msgs,
        duration (run m msgs) = duration m /\ state (run m msgs) = running).
Proof.
  intros Hr. destruct (reachable_invariant m Hr) as [H1 H2 H3 H4 H5 H6].
  repeat split; try lia; try assumption.
  - apply H5. assumption.
  - apply H5. assumption.
  - destruct (step_duration m msg) as [E | [E _]]; [congruence | exact E].
  - destruct (step_duration m msg) as [E | [_ E]]; [congruence | exact E].
  - apply run_running. assumption.
  - apply run_running. assumption.
Qed.

(** C4 (as amended): the running screen divides without a guard.  In
    every running state reached from the initial one the total duration
    is positive, so the divisor is not zero there, and the fraction shown
    is the elapsed time, total less remaining, over the total, both
    converted to floating point. *)
Theorem running_view_fraction m :
  reachable m -> state m = running ->
  0 < duration m
  /\ elapsed m = duration m - timeRemaining m
  /\ exists f, View m = timerFrame f
       /\ fraction f = PrimFloat.div (float64 (duration m - timeRemaining m))
                                     (float64 (duration m)).
Proof.
  intros Hr Hs. destruct (reachable_invariant m Hr) as [H1 H2 H3 H4 H5 H6].
  assert (elapsed m = duration m - timeRemaining m) as E.
  { unfold elapsed, Int64.sub. apply wrap_in_range. int64_bounds. lia. }
  repeat split; [apply H6; exact Hs | exact E |].
  unfold View. rewrite Hs. eexists. split; [reflexivity|].
  cbn. unfold percentComplete. rewrite E. reflexivity.
Qed.

Lemma reachable_run m (msgs : list Msg) : reachable m -> reachable (run m msgs).
Proof.
  revert m. induction msgs as [| msg msgs IH]; intros m H; [exact H|].
  cbn [run fold_left]. change (fold_left step ?l ?x) with (run x l).
  apply IH. constructor. exact H.
Qed.

End Session.

(** ** The formatter *)

(** C2: for a span of [s] whole seconds, [s] not negative,
    [formatDuration] prints minutes and seconds when [s < 3600] and hours,
    minutes and seconds otherwise, separated by colons; every field is a
    string of decimal digits, at least two of them and exactly two when
    the field is below 100, and reads back as the hours, the minutes or
    the seconds of [s]. *)
Theorem formatDuration_whole_seconds (s : Z) :
  0 <= s -> s * time.Second <= time.maxDuration ->
  let h := s / 3600 in
  let mi := s / 60 mod 60 in
  let sec := s mod 60 in
  s = 3600 * h + 60 * mi + sec /\ 0 <= h /\ 0 <= mi < 60 /\ 0 <= sec < 60
  /\ formatDuration (s * time.Second) =
     (if s <? 3600 then fmt.Sprintf02d mi ++ str ":" ++ fmt.Sprintf02d sec
      else fmt.Sprintf02d h ++ str ":" ++ fmt.Sprintf02d mi
           ++ str ":" ++ fmt.Sprintf02d sec)
  /\ forall x, In x [h; mi; sec] ->
       Forall (fun c => isDigit c = true) (fmt.Sprintf02d x)
       /\ strconv.atoiLoop 0 (fmt.Sprintf02d x) = Some x
       /\ (2 <= List.length (fmt.Sprintf02d x))%nat
       /\ (x < 100 -> List.length (fmt.Sprintf02d x) = 2%nat).
Proof.
  intros Hs Hmax h mi sec.
  assert (s = 3600 * h + 60 * mi + sec /\ 0 <= h /\ 0 <= mi < 60 /\ 0 <= sec < 60)
    as Hdec.
  { subst h mi sec. Z.div_mod_to_equations. lia. }
  destruct Hdec as (Hsum & Hh & Hmi & Hsec).
  repeat (split; [assumption || lia|]).
  split; [apply formatDuration_seconds; assumption|].
  intros x Hx.
  assert (0 <= x < 10 ^ 20) as Hx20.
  { assert (x <= s).
    { cbn [In] in Hx. destruct Hx as [<- | [<- | [<- | []]]]; lia. }
    assert (0 <= x).
    { cbn [In] in Hx. destruct Hx as [<- | [<- | [<- | []]]]; lia. }
    int64_bounds. lia. }
  split; [apply Sprintf02d_digits; lia|].
  split; [apply Sprintf02d_value; exact Hx20|].
  apply Sprintf02d_length. exact Hx20.
Qed.

(** ** Instances on concrete sessions *)

Lemma spaces_blank : spaces (str " ").
Proof. apply spaces_ascii; [reflexivity | apply spaces_nil]. Qed.

(** Outside any session (the buffer is longer than [CharLimit] allows):
    the numeral of 153722868 is accepted, but that many minutes do not fit
    a duration, and the product wraps around to a negative value. *)
Lemma confirm_numeral_overflow :
  let n := 153722868 in
  let m := typed (strconv.Itoa n) in
  0 < n
  /\ state m = inputtingTime
  /\ Value (textInput m) = str "153722868"
  /\ state (step m enter) = running
  /\ duration (step m enter) = -9223371993709551616
  /\ duration (step m enter) <> n * time.Minute.
Proof.
  vm_compute. repeat split; discriminate.
Qed.

Lemma confirm_numeral_starts_timer_witness :
  let m := typed (strconv.Itoa 90) in
  state (fst (Update m (KeyMsg enterKey))) = running
  /\ duration (fst (Update m (KeyMsg enterKey))) = 90 * time.Minute
  /\ timeRemaining (fst (Update m (KeyMsg enterKey))) = 90 * time.Minute
  /\ err (fst (Update m (KeyMsg enterKey))) = [].
Proof.
  apply (confirm_numeral_starts_timer (typed (strconv.Itoa 90)) enterKey 90).
  - reflexivity.
  - reflexivity.
  - reflexivity.
  - unfold maxMinutes. lia.
Defined.

Lemma formatDuration_whole_seconds_witness :
  formatDuration (5399 * time.Second) = str "01:29:59"
  /\ formatDuration (59 * time.Second) = str "00:59".
Proof.
  split.
  - destruct (formatDuration_whole_seconds 5399) as (_ & _ & _ & _ & E & _).
    + lia.
    + vm_compute. discriminate.
    + rewrite E. reflexivity.
  - destruct (formatDuration_whole_seconds 59) as (_ & _ & _ & _ & E & _).
    + lia.
    + vm_compute. discriminate.
    + rewrite E. reflexivity.
Defined.

Lemma confirm_invalid_sets_error_witness :
  Forall (fun v =>
            state (fst (Update (typed v) (KeyMsg enterKey))) = inputtingTime
            /\ textInput (fst (Update (typed v) (KeyMsg enterKey)))
               = textInput (typed v)
            /\ err (fst (Update (typed v) (KeyMsg enterKey)))
               = str "Please enter a valid positive number"
            /\ duration (fst (Update (typed v) (KeyMsg enterKey)))
               = duration (typed v)
            /\ timeRemaining (fst (Update (typed v) (KeyMsg enterKey)))
               = timeRemaining (typed v))
         [str "0"; str "-5"; str "abc"; str ""; str "1.5"; str "   "].
Proof.
  apply Forall_cons.
  { apply (confirm_invalid_sets_error (typed (str "0")) enterKey); reflexivity. }
  apply Forall_cons.
  { apply (confirm_invalid_sets_error (typed (str "-5")) enterKey); reflexivity. }
  apply Forall_cons.
  { apply (confirm_invalid_sets_error (typed (str "abc")) enterKey); reflexivity. }
  apply Forall_cons.
  { apply (confirm_invalid_sets_error (typed (str "")) enterKey); reflexivity. }
  apply Forall_cons.
  { apply (confirm_invalid_sets_error (typed (str "1.5")) enterKey); reflexivity. }
  apply Forall_cons.
  { apply (confirm_invalid_sets_error (typed (str "   ")) enterKey); reflexivity. }
  apply Forall_nil.
Defined.

(** With no duration the running screen divides zero by zero: the
    fraction is not a number, and so is not zero. *)
Lemma zero_duration_fraction :
  state zeroDuration = running
  /\ duration zeroDuration = 0
  /\ exists f, View zeroDuration = timerFrame f
       /\ PrimFloat.is_nan (fraction f) = true
       /\ PrimFloat.eqb (fraction f) 0%float = false.
Proof.
  split; [reflexivity|]. split; [reflexivity|].
  eexists. split; [reflexivity|]. split; vm_compute; reflexivity.
Qed.

Lemma running_view_fraction_witness :
  0 < duration started
  /\ elapsed started = duration started - timeRemaining started
  /\ exists f, View started = timerFrame f
       /\ fraction f =
          PrimFloat.div (float64 (duration started - timeRemaining started))
                        (float64 (duration started)).
Proof.
  apply (running_view_fraction started).
  - apply reachable_run. apply reachable_init.
  - reflexivity.
Defined.

(** After a refused submission, typing keeps the error on the screen. *)
Lemma typing_keeps_error :
  let m := run initialModel [key tea.KeyRunes (str "abc"); enter] in
  let m' := step m (key tea.KeyRunes (str "1")) in
  state m = inputtingTime
  /\ err m = errInvalid
  /\ Value (textInput m') = str "abc1"
  /\ state m' = inputtingTime
  /\ err m' = errInvalid
  /\ err m' <> [].
Proof.
  vm_compute. repeat split; discriminate.
Qed.

Lemma reachable_state_invariants_witness :
  let m := run initialModel [key tea.KeyRunes (str "1"); enter; tickMsg 0] in
  0 <= timeRemaining m <= duration m
  /\ timeRemaining m = 59 * time.Second
  /\ duration m = 60 * time.Second.
Proof.
  intros m.
  destruct (reachable_state_invariants m) as (H & _).
  - apply reachable_run. apply reachable_init.
  - split; [exact H|]. split; reflexivity.
Defined.

Lemma ticks_remaining_monotone_witness :
  timeRemaining (run started (map tickMsg ([0; 1] ++ [2])))
    <= timeRemaining (run started (map tickMsg [0; 1]))
  /\ state (run started (map tickMsg [0; 1])) = running
  /\ (0 <= timeRemaining started ->
      0 <= timeRemaining (run started (map tickMsg [0; 1]))).
Proof.
  apply (ticks_remaining_monotone started [0; 1] 2). reflexivity.
Defined.

Lemma ticks_after_completion_witness :
  run finished (map tickMsg [1; 2; 3]) = finished
  /\ timeRemaining (run finished (map tickMsg [1; 2; 3])) = 0
  /\ done (run finished (map tickMsg [1; 2; 3])) = true.
Proof.
  apply (ticks_after_completion finished [1; 2; 3]).
  - reflexivity.
  - vm_compute. reflexivity.
  - vm_compute. reflexivity.
Defined.

(** Outside any session again: white space around the numeral of
    153722868 changes nothing to the overflow. *)
Lemma confirm_padded_numeral_overflow :
  let n := 153722868 in
  let m := typed (str " " ++ strconv.Itoa n ++ str " ") in
  0 < n
  /\ state m = inputtingTime
  /\ Value (textInput m) = str " 153722868 "
  /\ state (step m enter) = running
  /\ duration (step m enter) = -9223371993709551616
  /\ duration (step m enter) <> n * time.Minute.
Proof.
  vm_compute. repeat split; discriminate.
Qed.

Lemma confirm_trims_whitespace_witness :
  let m := typed (str " 5 ") in
  state (fst (Update m (KeyMsg enterKey))) = running
  /\ duration (fst (Update m (KeyMsg enterKey))) = 5 * time.Minute
  /\ state (fst (Update (typed (str " ")) (KeyMsg enterKey))) = inputtingTime.
Proof.
  intros m.
  destruct (confirm_trims_whitespace m enterKey 5 (str " ") (str " ")
              eq_refl eq_refl spaces_blank spaces_blank) as [H _].
  destruct H as (H1 & H2 & _).
  - unfold maxMinutes. lia.
  - reflexivity.
  - destruct (confirm_trims_whitespace (typed (str " ")) enterKey 5
                (str " ") (str " ") eq_refl eq_refl spaces_blank spaces_blank)
      as [_ H'].
    destruct (H' eq_refl) as [H3 _].
    repeat split; assumption.
Defined.

(** ** The scenarios of the specification *)

Example scenario_one_minute :
  duration started = 60 * time.Second
  /\ timeRemaining started = 60 * time.Second
  /\ timeRemaining finished = 0
  /\ done finished = true
  /\ formatDuration (timeRemaining finished) = str "00:00"
  /\ percentComplete finished = 1%float.
Proof.
  vm_compute. repeat split.
Qed.

Example scenario_ninety_minutes :
  let m := run initialModel [key tea.KeyRunes (str "90"); enter; tickMsg 0] in
  timeRemaining m = 5399 * time.Second
  /\ formatDuration (timeRemaining m) = str "01:29:59".
Proof.
  vm_compute. repeat split.
Qed.

Example scenario_cancel :
  Update started (key tea.KeyEsc []) = (started, Quit)
  /\ Update (typed (str "12")) (key tea.KeyCtrlC []) = (typed (str "12"), Quit).
Proof.
  split; reflexivity.
Qed.

Example Atoi_5 : strconv.Atoi (str "5") = strconv.Ok 5.
Proof. reflexivity. Qed.

Example Atoi_minus5 : strconv.Atoi (str "-5") = strconv.Ok (-5).
Proof. reflexivity. Qed.

Example Atoi_abc : strconv.Atoi (str "abc") = strconv.Err 0 strconv.ErrSyntax.
Proof. reflexivity. Qed.

Example Atoi_empty : strconv.Atoi (str "") = strconv.Err 0 strconv.ErrSyntax.
Proof. reflexivity. Qed.

Example Atoi_big :
  strconv.Atoi (str "9223372036854775808") = strconv.Err (2 ^ 63 - 1) strconv.ErrRange.
Proof. vm_compute. reflexivity. Qed.

Example Atoi_max :
  strconv.Atoi (str "9223372036854775807") = strconv.Ok (2 ^ 63 - 1).
Proof. vm_compute. reflexivity. Qed.

Example Itoa_90 : strconv.Itoa 90 = str "90".
Proof. vm_compute. reflexivity. Qed.

Example Sprintf02d_5 : fmt.Sprintf02d 5 = str "05".
Proof. vm_compute. reflexivity. Qed.

Example Sprintf02d_neg5 : fmt.Sprintf02d (-5) = str "-5".
Proof. vm_compute. reflexivity. Qed.

Example Sprintf02d_123 : fmt.Sprintf02d 123 = str "123".
Proof. vm_compute. reflexivity. Qed.


(** * Further properties *)

(** ** [Atoi] accepts every integer of the [int] range *)

Lemma atoiFast_spec (s : gostring) :
  strconv.atoiFast s =
  match readInteger s with
  | Some n => strconv.Ok n
  | None => strconv.Err 0 strconv.ErrSyntax
  end.
Proof.
  unfold strconv.atoiFast, readInteger. destruct s as [| c0 rest]; [reflexivity|].
  destruct (if strconv.isSign c0 then rest else c0 :: rest) as [| d ds];
    [reflexivity|].
  rewrite atoiLoop_decimalValue.
  destruct (decimalValue 0 (d :: ds)); reflexivity.
Qed.

Lemma decimalValue_lower (s : gostring) (a v : Z) :
  0 <= a -> decimalValue a s = Some v -> a <= v.
Proof.
  intros Ha H. rewrite <- atoiLoop_decimalValue in H.
  destruct (atoiLoop_Some _ _ _ Ha H) as [_ [Hlo _]].
  assert (1 <= 10 ^ Z.of_nat (List.length s)).
  { pose proof (Z.pow_pos_nonneg 10 (Z.of_nat (List.length s))). lia. }
  nia.
Qed.

Lemma parseUintLoop_complete (s : gostring) : forall a v : Z,
  0 <= a -> decimalValue a s = Some v -> v <= strconv.MaxUint64 ->
  strconv.parseUintLoop a s = (v, None).
Proof.
  induction s as [| c s IH]; intros a v Ha H Hv;
    cbn [strconv.parseUintLoop decimalValue] in *.
  - inversion H. reflexivity.
  - destruct (isDigit c) eqn:Hc; [| discriminate].
    pose proof (proj1 (isDigit_byteval c) Hc) as Hb.
    assert (0 <= a * 10 + (byteval c - 48)) as Ha' by lia.
    pose proof (decimalValue_lower _ _ _ Ha' H) as Hlow.
    change strconv.MaxUint64 with 18446744073709551615 in *.
    change (18446744073709551615 / 10 + 1) with 1844674407370955162.
    destruct (Z.leb_spec 1844674407370955162 a); [lia|].
    unfold Int64.modulus. rewrite Z.mod_small by lia.
    destruct (Z.ltb_spec (a * 10 + (byteval c - 48)) (a * 10)); [lia|].
    destruct (Z.ltb_spec 18446744073709551615 (a * 10 + (byteval c - 48)));
      [lia|].
    cbn [orb]. apply IH; [lia | exact H | exact Hv].
Qed.

Lemma readInteger_ParseInt (s : gostring) (n : Z) :
  readInteger s = Some n -> Int64.in_range n -> strconv.ParseInt s = strconv.Ok n.
Proof.
  unfold strconv.ParseInt, readInteger, strconv.ParseUint.
  destruct s as [| c0 rest]; [discriminate|].
  destruct (if strconv.isSign c0 then rest else c0 :: rest) as [| d ds];
    [discriminate|].
  destruct (decimalValue 0 (d :: ds)) as [v |] eqn:Ev; [| discriminate].
  pose proof (decimalValue_lower _ _ _ (Z.le_refl 0) Ev) as Hv0.
  intros H Hn. inversion H as [Hn']. clear H.
  assert (v <= 2 ^ 63) as Hv.
  { int64_bounds. destruct (strconv.isMinus c0); lia. }
  rewrite (parseUintLoop_complete _ _ _ (Z.le_refl 0) Ev)
    by (change strconv.MaxUint64 with 18446744073709551615; lia).
  destruct (strconv.isMinus c0); cbn [negb andb].
  - destruct (Z.ltb_spec (2 ^ 63) v); [lia|]. f_equal.
    destruct (Z.eq_dec v (2 ^ 63)) as [-> | Hne]; [reflexivity|].
    unfold Int64.neg. rewrite (wrap_in_range v) by (int64_bounds; lia).
    apply wrap_in_range. int64_bounds. lia.
  - destruct (Z.leb_spec (2 ^ 63) v); [int64_bounds; lia|]. f_equal.
    apply wrap_in_range. int64_bounds. lia.
Qed.

Lemma readInteger_Atoi (s : gostring) (n : Z) :
  readInteger s = Some n -> Int64.in_range n -> strconv.Atoi s = strconv.Ok n.
Proof.
  intros H Hn. unfold strconv.Atoi. destruct (_ && _).
  - rewrite atoiFast_spec, H. reflexivity.
  - apply readInteger_ParseInt; assumption.
Qed.

Lemma readInteger_bound (s : gostring) (n : Z) :
  readInteger s = Some n ->
  Forall (fun c => signOrDigit c = true) s
  /\ Z.abs n < 10 ^ Z.of_nat (List.length s).
Proof.
  intros H. apply atoiFast_Ok. rewrite atoiFast_spec, H. reflexivity.
Qed.

(** The test of [Update] on a submitted text, in terms of the integer the
    text denotes. *)
Lemma refused_spec (s : gostring) :
  refused s =
  match readInteger s with
  | Some n => negb ((0 <? n) && (n <=? Int64.MaxInt64))
  | None => true
  end.
Proof.
  unfold refused. destruct (readInteger s) as [n |] eqn:E.
  - destruct (Z.ltb_spec 0 n) as [Hp | Hp]; cbn [andb negb].
    + destruct (Z.leb_spec n Int64.MaxInt64) as [Hm | Hm]; cbn [negb].
      * rewrite (readInteger_Atoi _ _ E) by (int64_bounds; lia).
        apply Z.leb_gt. exact Hp.
      * destruct (strconv.Atoi s) as [n' | v e] eqn:Ea; [| reflexivity].
        pose proof (Atoi_readInteger _ _ Ea) as E'.
        rewrite E in E'. inversion E'; subst n'.
        unfold strconv.Atoi in Ea.
        destruct (_ && _) eqn:Hpath.
        -- apply andb_true_iff in Hpath. destruct Hpath as [_ Hlen].
           apply Z.ltb_lt in Hlen.
           destruct (atoiFast_Ok _ _ Ea) as [_ Hb].
           assert (10 ^ Z.of_nat (List.length s) <= 10 ^ 18)
             by (apply Z.pow_le_mono_r; lia).
           int64_bounds. lia.
        -- exfalso. revert Ea. clear -Hm. intros Ea.
           unfold strconv.ParseInt in Ea.
           destruct s as [| c0 rest]; [discriminate|].
           destruct (strconv.ParseUint _) as [un [[|]|]]; try discriminate;
             destruct (strconv.isMinus c0); cbn [negb andb] in Ea;
             repeat match type of Ea with
                    | (if ?b then _ else _) = _ => destruct b; try discriminate
                    end;
             inversion Ea as [Hn];
             match type of Hn with
             | Int64.neg ?x = _ => pose proof (wrap_bounds (- x))
             | Int64.wrap ?x = _ => pose proof (wrap_bounds x)
             end; unfold Int64.neg in *; int64_bounds; lia.
    + destruct (strconv.Atoi s) as [n' | v e] eqn:Ea; [| reflexivity].
      pose proof (Atoi_readInteger _ _ Ea) as E'.
      rewrite E in E'. inversion E'; subst n'. apply Z.leb_le. exact Hp.
  - destruct (strconv.Atoi s) as [n' | v e] eqn:Ea; [| reflexivity].
    pose proof (Atoi_readInteger _ _ Ea) as E'. congruence.
Qed.

(** ** Submission, in terms of the integer the buffer denotes *)

Ltac fields :=
  cbn [textInput state duration timeRemaining progress done err startedWith
       set_textInput set_err set_state set_duration set_timeRemaining set_done].

Section Further.

Context {T : Type} `{TI : TextInput T}.

Implicit Types (m : model T) (k : tea.Key) (msg : Msg).

Lemma submit_spec m :
  submit m =
  match readInteger (strings.TrimSpace (Value (textInput m))) with
  | Some n =>
      if (0 <? n) && (n <=? Int64.MaxInt64)
      then (startedWith m (Int64.mul n time.Minute), nilCmd)
      else (set_err m errInvalid, nilCmd)
  | None => (set_err m errInvalid, nilCmd)
  end.
Proof.
  pose proof (refused_spec (strings.TrimSpace (Value (textInput m)))) as Hr.
  destruct (readInteger (strings.TrimSpace (Value (textInput m)))) as [n |] eqn:E.
  - destruct ((0 <? n) && (n <=? Int64.MaxInt64)) eqn:Hb; cbn [negb] in Hr.
    + apply andb_true_iff in Hb. destruct Hb as [Hp Hm].
      apply Z.ltb_lt in Hp. apply Z.leb_le in Hm.
      apply (submit_accepted m n); [| exact Hp].
      apply readInteger_Atoi; [exact E | int64_bounds; lia].
    + apply submit_refused. exact Hr.
  - apply submit_refused. exact Hr.
Qed.

(** X1: confirming in the input phase starts the timer exactly when the
    trimmed buffer denotes an integer from 1 to the largest [int]; the
    durations are then that many minutes in 64-bit arithmetic.  Every
    other buffer gets the error message and nothing else changes. *)
Theorem confirm_accepts_exactly m k :
  tea.Type_ k = tea.KeyEnter ->
  state m = inputtingTime ->
  Update m (KeyMsg k) =
  match readInteger (strings.TrimSpace (Value (textInput m))) with
  | Some n =>
      if (0 <? n) && (n <=? Int64.MaxInt64)
      then (startedWith m (Int64.mul n time.Minute), nilCmd)
      else (set_err m errInvalid, nilCmd)
  | None => (set_err m errInvalid, nilCmd)
  end.
Proof.
  intros Hk Hs. rewrite (Update_enter m k Hk Hs). apply submit_spec.
Qed.

Lemma limited_value (v : gostring) (n : Z) :
  utf8.runeStarts v <= CharLimit ->
  readInteger (strings.TrimSpace v) = Some n -> Z.abs n <= 99999.
Proof.
  intros Hv E. destruct (readInteger_bound _ _ E) as [Hall Hb].
  pose proof (runeStarts_TrimSpace v) as Ht.
  rewrite (runeStarts_ascii _ Hall) in Ht. unfold CharLimit in Hv.
  assert (10 ^ Z.of_nat (List.length (strings.TrimSpace v)) <= 10 ^ 5)
    by (apply Z.pow_le_mono_r; lia).
  change (10 ^ 5) with 100000 in *. lia.
Qed.

Lemma submit_limited m :
  utf8.runeStarts (Value (textInput m)) <= CharLimit ->
  submit m =
  match readInteger (strings.TrimSpace (Value (textInput m))) with
  | Some n =>
      if 0 <? n then (startedWith m (n * time.Minute), nilCmd)
      else (set_err m errInvalid, nilCmd)
  | None => (set_err m errInvalid, nilCmd)
  end.
Proof.
  intros Hl. rewrite submit_spec.
  destruct (readInteger _) as [n |] eqn:E; [| reflexivity].
  pose proof (limited_value _ _ Hl E) as Hn.
  destruct (Z.ltb_spec 0 n) as [Hp | Hp]; cbn [andb]; [| reflexivity].
  destruct (Z.leb_spec n Int64.MaxInt64) as [Hm | Hm]; [| int64_bounds; lia].
  rewrite mul_minutes by (unfold maxMinutes; lia). reflexivity.
Qed.

(** X2: in a session the minutes cannot overflow.  From a reachable
    state in the input phase, confirming a buffer that denotes a positive
    integer [n] starts the timer with exactly [n] minutes, and [n] is at
    most 99999; any other buffer gets the error message. *)
Theorem confirm_in_session m k :
  reachable m ->
  tea.Type_ k = tea.KeyEnter ->
  state m = inputtingTime ->
  match readInteger (strings.TrimSpace (Value (textInput m))) with
  | Some n =>
      if 0 <? n
      then n <= 99999
           /\ Update m (KeyMsg k) = (startedWith m (n * time.Minute), nilCmd)
      else Update m (KeyMsg k) = (set_err m errInvalid, nilCmd)
  | None => Update m (KeyMsg k) = (set_err m errInvalid, nilCmd)
  end.
Proof.
  intros Hr Hk Hs. rewrite (Update_enter m k Hk Hs).
  destruct (reachable_invariant m Hr) as [Hl _ _ _ _ _].
  rewrite (submit_limited m Hl).
  destruct (readInteger _) as [n |] eqn:E; [| reflexivity].
  destruct (0 <? n); [| reflexivity].
  split; [| reflexivity].
  pose proof (limited_value _ _ Hl E). lia.
Qed.

(** ** The steps of a session, case by case *)

Lemma step_cases m msg :
  invariant m ->
  step m msg = m
  \/ (state m = inputtingTime /\ exists ti, step m msg = set_textInput m ti)
  \/ (state m = inputtingTime /\ step m msg = set_err m errInvalid)
  \/ (state m = inputtingTime
      /\ exists n, 0 < n <= 99999 /\ step m msg = startedWith m (n * time.Minute))
  \/ (state m = running /\ 0 < timeRemaining m
      /\ step m msg =
         if timeRemaining m - time.Second <=? 0
         then set_done (set_timeRemaining m 0) true
         else set_timeRemaining m (timeRemaining m - time.Second)).
Proof.
  intros Hinv.
  assert (state m = inputtingTime -> forall msg',
            exists ti, fst (forward m msg') = set_textInput m ti) as Hfwd.
  { intros Hs msg'. unfold forward. rewrite Hs.
    destruct (widgetUpdate (textInput m) msg') as [ti cmd]. exists ti.
    reflexivity. }
  assert (state m = running -> forall msg', fst (forward m msg') = m) as Hdrop.
  { intros Hs msg'. unfold forward. rewrite Hs. reflexivity. }
  assert (forall msg', Update m msg = forward m msg' ->
            step m msg = m
            \/ (state m = inputtingTime
                /\ exists ti, step m msg = set_textInput m ti)) as Hf.
  { intros msg' E. unfold step. rewrite E. destruct (state m) eqn:Hs.
    - right. split; [reflexivity|]. apply Hfwd. reflexivity.
    - left. apply Hdrop. reflexivity. }
  destruct msg as [k | t | tag].
  - destruct (tea.Type_ k) eqn:Hk;
      try (destruct (Hf (KeyMsg k)) as [E | E];
           [unfold Update; rewrite Hk; reflexivity | left; exact E
           | right; left; exact E]);
      try (left; unfold step, Update; rewrite Hk; reflexivity).
    destruct (state m) eqn:Hs.
    + unfold step. rewrite (Update_enter m k Hk Hs).
      rewrite (submit_limited m (inv_limit m Hinv)).
      destruct (readInteger _) as [n |] eqn:E;
        [| right; right; left; split; reflexivity].
      destruct (Z.ltb_spec 0 n) as [Hp | Hp];
        [| right; right; left; split; reflexivity].
      right; right; right; left. split; [reflexivity|]. exists n.
      split; [| reflexivity].
      pose proof (limited_value _ _ (inv_limit m Hinv) E). lia.
    + left. unfold step, Update. rewrite Hk, Hs. apply Hdrop. reflexivity.
  - destruct (tick_cases m t) as [(Hs & Hp & E) | [_ E]]; [| left; exact E].
    right; right; right; right. repeat split; try assumption.
    rewrite E. cbv zeta.
    destruct Hinv as [_ H2 H3 _ _ _].
    assert (Int64.sub (timeRemaining m) time.Second
            = timeRemaining m - time.Second) as ->.
    { unfold Int64.sub. apply wrap_in_range. int64_bounds. lia. }
    destruct (_ <=? 0); reflexivity.
  - destruct (Hf (otherMsg tag)) as [E | E];
      [reflexivity | left; exact E | right; left; exact E].
Qed.

Lemma initialModel_shape : shape (@initialModel T TI).
Proof.
  constructor; cbn.
  - exists 0, 0. repeat split; lia.
  - discriminate.
  - reflexivity.
  - left. reflexivity.
Qed.

Lemma step_shape m msg : invariant m -> shape m -> shape (step m msg).
Proof.
  intros Hinv Hsh.
  destruct (step_cases m msg Hinv)
    as [E | [(Hs & ti & E) | [(Hs & E) | [(Hs & n & Hn & E) | (Hs & Hp & E)]]]];
    rewrite E; clear E.
  - exact Hsh.
  - destruct Hsh as [H1 H2 H3 H4]. constructor; assumption.
  - destruct Hsh as [H1 H2 H3 H4]. constructor; try assumption.
    right. split; [reflexivity | exact Hs].
  - destruct Hsh as [H1 H2 H3 H4]. constructor; fields.
    + exists n, (60 * n). repeat split; try lia.
      unfold time.Minute, time.Duration. ring.
    + intros _. rewrite (H3 Hs). split; [discriminate|].
      int64_bounds. lia.
    + discriminate.
    + left. reflexivity.
  - destruct Hsh as [(n & j & Hn & Hd & Hj & Hr) H2 H3 H4].
    assert (1 <= j) as Hj1 by (rewrite Hr in Hp; int64_bounds; lia).
    destruct (Z.leb_spec (timeRemaining m - time.Second) 0) as [Hz | Hz].
    + constructor; fields.
      * exists n, 0. repeat split; try lia; try exact Hd.
      * intros _. split; reflexivity.
      * rewrite Hs. discriminate.
      * destruct H4 as [H4 | [_ H4]]; [left; exact H4 | congruence].
    + constructor; fields.
      * exists n, (j - 1). repeat split; try lia; try exact Hd.
      * intros _. destruct (H2 Hs) as [H2a H2b]. split.
        -- intros Hd'. specialize (H2a Hd'). lia.
        -- intros Hr'. lia.
      * rewrite Hs. discriminate.
      * destruct H4 as [H4 | [_ H4]]; [left; exact H4 | congruence].
Qed.

Lemma reachable_shape m : reachable m -> shape m.
Proof.
  induction 1 as [| m msg Hr IH].
  - apply initialModel_shape.
  - apply step_shape; [apply reachable_invariant; exact Hr | exact IH].
Qed.

(** X3: in a session the completion flag tells that the countdown is
    over: it is set exactly when the timer is running with no time
    remaining. *)
Theorem done_iff_finished m :
  reachable m ->
  (done m = true <-> state m = running /\ timeRemaining m = 0).
Proof.
  intros Hr. destruct (reachable_shape m Hr) as [_ H2 H3 _].
  destruct (state m) eqn:Hs.
  - rewrite (H3 eq_refl). split; [discriminate | intros [? _]; discriminate].
  - destruct (H2 eq_refl) as [Ha Hb]. split.
    + intros Hd. split; [reflexivity | apply Ha; exact Hd].
    + intros [_ Hz]. apply Hb. exact Hz.
Qed.

(** X4: in a session the total duration is a whole number of minutes, at
    most 99999, and the remaining time a whole number of seconds within
    it; the elapsed time [View] shows is their difference, and the
    rounding in [formatDuration] leaves the remaining time as it is. *)
Theorem session_whole_seconds m :
  reachable m ->
  exists n j : Z,
    0 <= n <= 99999 /\ duration m = n * time.Minute
    /\ 0 <= j <= 60 * n /\ timeRemaining m = j * time.Second
    /\ elapsed m = (60 * n - j) * time.Second
    /\ time.Round (timeRemaining m) time.Second = timeRemaining m.
Proof.
  intros Hr. destruct (reachable_shape m Hr) as [(n & j & Hn & Hd & Hj & Ht) _ _ _].
  exists n, j. repeat split; try lia; try assumption.
  - unfold elapsed, Int64.sub. rewrite Hd, Ht.
    rewrite wrap_in_range by (int64_bounds; lia).
    unfold time.Minute, time.Duration. ring.
  - rewrite Ht. apply Round_seconds; [lia|]. int64_bounds. lia.
Qed.

(** X5: in a session the error text is either empty or the fixed message,
    and it is empty once the timer runs; so the input screen shows an
    alert exactly when the error is the fixed message. *)
Theorem session_error_text m :
  reachable m ->
  (err m = [] \/ err m = errInvalid)
  /\ (state m = running -> err m = [])
  /\ (state m = inputtingTime ->
      View m = inputFrame (Value (textInput m))
                          (if List.length (err m) =? 0 then None
                           else Some errInvalid)%nat).
Proof.
  intros Hr. destruct (reachable_shape m Hr) as [_ _ _ H4].
  split; [| split].
  - destruct H4 as [H4 | [H4 _]]; [left | right]; exact H4.
  - intros Hs. destruct H4 as [H4 | [_ H4]]; [exact H4 | congruence].
  - intros Hs. unfold View. rewrite Hs.
    destruct H4 as [H4 | [H4 _]]; rewrite H4; reflexivity.
Qed.

End Further.

(** ** Counting down *)

Ltac bool_cases :=
  repeat match goal with
         | |- context [?a <? ?b] => destruct (Z.ltb_spec a b)
         | |- context [?a <=? ?b] => destruct (Z.leb_spec a b)
         end;
  cbn [andb orb negb]; rewrite ?orb_false_r, ?orb_true_r; try reflexivity;
  try lia.

Section Countdown.

Context {T : Type} `{TI : TextInput T}.

Implicit Types (m : model T) (k : tea.Key) (msg : Msg).

Lemma tick_value m (t : time.Time) :
  state m = running -> 0 <= timeRemaining m <= Int64.MaxInt64 ->
  timeRemaining (step m (tickMsg t)) = Z.max 0 (timeRemaining m - time.Second)
  /\ done (step m (tickMsg t))
     = done m || ((0 <? timeRemaining m)
                  && (timeRemaining m - time.Second <=? 0)).
Proof.
  intros Hs Hr.
  destruct (tick_cases m t) as [(_ & Hp & E) | [[Hi | Hz] E]]; rewrite E.
  - cbv zeta.
    assert (Int64.sub (timeRemaining m) time.Second
            = timeRemaining m - time.Second) as ->.
    { unfold Int64.sub. apply wrap_in_range. int64_bounds. lia. }
    destruct (Z.leb_spec (timeRemaining m - time.Second) 0) as [Hle | Hgt];
      fields.
    + split; [lia|]. destruct (Z.ltb_spec 0 (timeRemaining m)); [| lia].
      apply eq_sym, orb_true_r.
    + split; [lia|]. rewrite andb_false_r. apply eq_sym, orb_false_r.
  - congruence.
  - assert (timeRemaining m = 0) as E0 by lia. rewrite E0.
    split; [reflexivity|]. apply eq_sym, orb_false_r.
Qed.

Lemma ticks_value (ts : list time.Time) : forall m,
  state m = running -> 0 <= timeRemaining m <= Int64.MaxInt64 ->
  timeRemaining (run m (map tickMsg ts))
    = Z.max 0 (timeRemaining m - Z.of_nat (List.length ts) * time.Second)
  /\ done (run m (map tickMsg ts))
     = done m || ((0 <? timeRemaining m)
                  && (timeRemaining m
                      - Z.of_nat (List.length ts) * time.Second <=? 0)).
Proof.
  induction ts as [| t ts IH]; intros m Hs Hr.
  - cbn [map run fold_left List.length Z.of_nat]. split.
    + lia.
    + rewrite Z.mul_0_l, Z.sub_0_r.
      destruct (done m); [reflexivity|]. cbn [orb]. bool_cases.
  - cbn [map run fold_left]. change (fold_left step ?l ?x) with (run x l).
    destruct (tick_value m t Hs Hr) as [Ev Ed].
    assert (state (step m (tickMsg t)) = running) as Hs'
      by (rewrite tick_state; exact Hs).
    assert (0 <= timeRemaining (step m (tickMsg t)) <= Int64.MaxInt64) as Hr'
      by (rewrite Ev; int64_bounds; lia).
    destruct (IH _ Hs' Hr') as [Ev' Ed']. rewrite Ev', Ed', Ev, Ed.
    cbn [List.length]. rewrite Nat2Z.inj_succ.
    set (j := Z.of_nat (List.length ts)) in *.
    assert (0 <= j) by (subst j; lia).
    unfold time.Second in *. split; [lia|].
    destruct (done m); [reflexivity|]. cbn [orb]. bool_cases.
Qed.

(** X6: the countdown is exact.  From a running state whose remaining
    time is not negative, [j] ticks leave the remaining time less [j]
    seconds, or zero when that would be negative; the completion flag is
    then set exactly when it was set before or the countdown has come to
    zero. *)
Theorem ticks_count_down m (ts : list time.Time) :
  state m = running -> 0 <= timeRemaining m <= Int64.MaxInt64 ->
  timeRemaining (run m (map tickMsg ts))
    = Z.max 0 (timeRemaining m - Z.of_nat (List.length ts) * time.Second)
  /\ done (run m (map tickMsg ts))
     = done m || ((0 <? timeRemaining m)
                  && (timeRemaining m
                      - Z.of_nat (List.length ts) * time.Second <=? 0)).
Proof.
  apply ticks_value.
Qed.

(** X7: a whole run.  Confirming the numeral of [n] minutes and then
    receiving [j] ticks leaves [60 n - j] seconds, or none, on a timer of
    [n] minutes; the timer is complete exactly from the tick number
    [60 n] on. *)
Theorem confirm_then_ticks m k (n : Z) (ts : list time.Time) :
  tea.Type_ k = tea.KeyEnter ->
  state m = inputtingTime ->
  done m = false ->
  Value (textInput m) = strconv.Itoa n ->
  0 < n <= maxMinutes ->
  let j := Z.of_nat (List.length ts) in
  let m' := run m (KeyMsg k :: map tickMsg ts) in
  state m' = running
  /\ duration m' = n * time.Minute
  /\ timeRemaining m' = Z.max 0 (60 * n - j) * time.Second
  /\ (done m' = true <-> 60 * n <= j).
Proof.
  intros Hk Hs Hd Hv Hn j m'. subst m'.
  cbn [run fold_left]. change (fold_left step ?l ?x) with (run x l).
  assert (step m (KeyMsg k) = startedWith m (n * time.Minute)) as E.
  { unfold step. rewrite (Update_enter m k Hk Hs).
    rewrite (submit_numeral m n [] [] spaces_nil spaces_nil Hn);
      [reflexivity | rewrite app_nil_r; exact Hv]. }
  rewrite E.
  assert (0 <= n * time.Minute <= Int64.MaxInt64) as Hr.
  { unfold maxMinutes in Hn. int64_bounds. lia. }
  destruct (ticks_value ts (startedWith m (n * time.Minute)) eq_refl Hr)
    as [Ev Ed].
  fold j in Ev, Ed. fields.
  assert (0 <= j) by (subst j; lia).
  split; [rewrite ticks_state; reflexivity|].
  split; [apply (run_running (startedWith m (n * time.Minute))); reflexivity|].
  split.
  - rewrite Ev. fields. unfold time.Minute, time.Second. lia.
  - rewrite Ed. fields. rewrite Hd. cbn [orb].
    unfold time.Minute, time.Second, maxMinutes in *.
    destruct (Z.ltb_spec 0 (n * (60 * 1000000000))); [| lia].
    destruct (Z.leb_spec (n * (60 * 1000000000) - j * 1000000000) 0);
      cbn [andb]; split; intros; try lia; try reflexivity; discriminate.
Qed.

(** ** What a running timer ignores *)

Lemma running_step m msg :
  state m = running -> isTick msg = false ->
  Update m msg = (m, if isQuitKey msg then Quit else nilCmd).
Proof.
  intros Hs Ht. destruct msg as [k | t | tag]; [| discriminate |].
  - unfold Update, forward, isQuitKey. rewrite Hs.
    destruct (tea.Type_ k); reflexivity.
  - unfold Update, forward, isQuitKey. rewrite Hs. reflexivity.
Qed.

(** X8: a running timer ignores input.  Every message other than a tick
    leaves the model as it is, Enter and typed text included, and the only
    command that comes back is [Quit], for Ctrl-C and Esc. *)
Theorem running_ignores_input m msg :
  state m = running -> isTick msg = false ->
  Update m msg = (m, if isQuitKey msg then Quit else nilCmd).
Proof.
  apply running_step.
Qed.

Lemma running_step_fields m msg :
  state m = running ->
  state (step m msg) = running
  /\ duration (step m msg) = duration m
  /\ textInput (step m msg) = textInput m
  /\ err (step m msg) = err m
  /\ timeRemaining (step m msg) <= timeRemaining m.
Proof.
  intros Hs. destruct (isTick msg) eqn:Ht.
  - destruct msg as [k | t | tag]; try discriminate.
    split; [rewrite tick_state; exact Hs|].
    split; [apply (step_running m (tickMsg t) Hs)|].
    split; [| split; [apply tick_err | apply tick_remaining]].
    destruct (tick_cases m t) as [(_ & _ & E) | [_ E]]; rewrite E;
      [| reflexivity].
    cbv zeta. destruct (_ <=? 0); reflexivity.
  - unfold step. rewrite (running_step m msg Hs Ht). cbn [fst].
    repeat split; try assumption. lia.
Qed.

(** X9: once the timer runs, no message brings the input phase back or
    touches the total duration, the buffer or the error text; the
    remaining time never grows, whatever the messages. *)
Theorem running_is_final m (msgs : list Msg) :
  state m = running ->
  state (run m msgs) = running
  /\ duration (run m msgs) = duration m
  /\ textInput (run m msgs) = textInput m
  /\ err (run m msgs) = err m
  /\ timeRemaining (run m msgs) <= timeRemaining m.
Proof.
  revert m. induction msgs as [| msg msgs IH]; intros m Hs.
  - cbn [run fold_left]. repeat split; try assumption. lia.
  - cbn [run fold_left]. change (fold_left step ?l ?x) with (run x l).
    destruct (running_step_fields m msg Hs) as (H1 & H2 & H3 & H4 & H5).
    destruct (IH _ H1) as (I1 & I2 & I3 & I4 & I5).
    repeat split; try congruence. lia.
Qed.

Lemma done_step m msg : done m = true -> done (step m msg) = true.
Proof.
  intros Hd. destruct msg as [k | t | tag].
  - unfold step, Update.
    destruct (tea.Type_ k); try exact Hd;
      try (destruct (forward_fields m (KeyMsg k)) as (_ & _ & _ & _ & E);
           rewrite E; exact Hd).
    destruct (state m) eqn:Hs.
    + rewrite submit_spec. destruct (readInteger _) as [n |]; [| exact Hd].
      destruct (_ && _); exact Hd.
    + destruct (forward_fields m (KeyMsg k)) as (_ & _ & _ & _ & E).
      rewrite E. exact Hd.
  - destruct (tick_cases m t) as [(_ & _ & E) | [_ E]]; rewrite E;
      [| exact Hd].
    cbv zeta. destruct (_ <=? 0); [reflexivity | exact Hd].
  - destruct (forward_fields m (otherMsg tag)) as (_ & _ & _ & _ & E).
    unfold step, Update. rewrite E. exact Hd.
Qed.

(** X10: the completion flag is never reset: once set, it is set after
    any messages, in any state. *)
Theorem done_is_kept m (msgs : list Msg) :
  done m = true -> done (run m msgs) = true.
Proof.
  revert m. induction msgs as [| msg msgs IH]; intros m Hd; [exact Hd|].
  cbn [run fold_left]. change (fold_left step ?l ?x) with (run x l).
  apply IH. apply done_step. exact Hd.
Qed.

(** X11: ticks do nothing before the timer starts, and nothing to a
    running timer whose remaining time is zero or negative: such a timer
    never counts and never completes. *)
Theorem ticks_without_effect m (ts : list time.Time) :
  state m = inputtingTime \/ timeRemaining m <= 0 ->
  run m (map tickMsg ts) = m.
Proof.
  intros H. induction ts as [| t ts IH]; [reflexivity|].
  cbn [map run fold_left]. change (fold_left step ?l ?x) with (run x l).
  destruct (tick_cases m t) as [(Hs & Hp & _) | [_ E]].
  - destruct H as [H | H]; [congruence | lia].
  - rewrite E. exact IH.
Qed.

End Countdown.

(** ** More on [formatDuration] *)

Lemma Round_half_up (d : Z) :
  0 <= d -> d + time.Second <= time.maxDuration ->
  time.Round d time.Second = (d + 500000000) / 1000000000 * time.Second.
Proof.
  intros Hd Hmax. unfold time.Round.
  change (time.Second <=? 0) with false. cbv iota.
  destruct (Z.ltb_spec d 0) as [Hn | _]; [lia|].
  unfold Int64.rem. rewrite Z.rem_mod_nonneg by (unfold time.Second; lia).
  pose proof (Z.mod_pos_bound d time.Second ltac:(unfold time.Second; lia)) as Hr.
  pose proof (Z.div_mod d time.Second ltac:(unfold time.Second; lia)) as Hdm.
  set (r := d mod time.Second) in *. set (q := d / time.Second) in *.
  assert (0 <= q) as Hq by (subst q; apply Z.div_pos; unfold time.Second; lia).
  unfold time.lessThanHalf, Int64.to_uint64.
  rewrite (Z.mod_small r) by (int64_bounds; lia).
  rewrite (Z.mod_small (r + r)) by (int64_bounds; lia).
  change (time.Second mod Int64.modulus) with time.Second.
  assert (forall x, 0 <= x < time.Second ->
            (q * time.Second + x) / 1000000000 = q) as Hdiv.
  { intros x Hx. unfold time.Second in *.
    rewrite Z.div_add_l by lia. rewrite Z.div_small by lia. lia. }
  destruct (Z.ltb_spec (r + r) time.Second) as [Hlt | Hge].
  - unfold Int64.sub. rewrite wrap_in_range by (int64_bounds; lia).
    replace (d + 500000000) with (q * time.Second + (r + 500000000))
      by (unfold time.Second in *; lia).
    rewrite Hdiv by (unfold time.Second in *; lia).
    unfold time.Second in *. lia.
  - unfold Int64.sub, Int64.add.
    rewrite (wrap_in_range (d + time.Second)) by (int64_bounds; lia).
    rewrite wrap_in_range by (int64_bounds; lia).
    destruct (Z.ltb_spec d (d + time.Second - r)) as [_ | Hbad];
      [| unfold time.Second in *; lia].
    replace (d + 500000000)
      with ((q + 1) * time.Second + (r - 500000000))
      by (unfold time.Second in *; lia).
    assert (((q + 1) * time.Second + (r - 500000000)) / 1000000000 = q + 1)
      as ->.
    { unfold time.Second in *.
      rewrite Z.div_add_l by lia. rewrite Z.div_small by lia. lia. }
    unfold time.Second in *. lia.
Qed.

Lemma formatDuration_of_Round (d d' : Z) :
  time.Round d time.Second = time.Round d' time.Second ->
  formatDuration d = formatDuration d'.
Proof.
  intros E. unfold formatDuration. rewrite E. reflexivity.
Qed.

(** X12: [formatDuration] rounds to the nearest second, a half upward: a
    span [d] that is not negative prints as the whole number of seconds
    [(d + 500ms) / 1s], that is, as its clock reading. *)
Theorem formatDuration_rounds (d : Z) :
  0 <= d -> d + time.Second <= time.maxDuration ->
  formatDuration d = clock ((d + 500000000) / 1000000000).
Proof.
  intros Hd Hmax.
  set (s := (d + 500000000) / 1000000000).
  assert (0 <= s) as Hs by (subst s; apply Z.div_pos; lia).
  assert (s * time.Second <= time.maxDuration) as Hs'.
  { assert (s * 1000000000 <= d + 500000000).
    { subst s. pose proof (Z.mul_div_le (d + 500000000) 1000000000 ltac:(lia)).
      lia. }
    int64_bounds. lia. }
  rewrite (formatDuration_of_Round d (s * time.Second)).
  - apply formatDuration_seconds; assumption.
  - rewrite Round_half_up by assumption.
    rewrite Round_seconds by assumption. reflexivity.
Qed.

Lemma quo_neg_seconds (a b : Z) :
  0 <= a -> 0 < b -> a * time.Second <= time.maxDuration ->
  Int64.quo (- a * time.Second) (b * time.Second) = - (a / b).
Proof.
  intros Ha Hb Hmax. unfold Int64.quo.
  replace (- a * time.Second) with (- (a * time.Second)) by ring.
  rewrite Z.quot_opp_l by (unfold time.Second; lia).
  rewrite Z.quot_div_nonneg by (unfold time.Second; lia).
  rewrite Z.div_mul_cancel_r by (unfold time.Second; lia).
  apply wrap_in_range.
  assert (0 <= a / b <= a).
  { split; [apply Z.div_pos; lia|].
    apply Z.div_le_upper_bound; [lia | nia]. }
  int64_bounds. lia.
Qed.

Lemma sub_mul_neg_seconds (a q b : Z) :
  0 <= a -> a * time.Second <= time.maxDuration -> 0 <= q * b <= a ->
  Int64.sub (- a * time.Second) (Int64.mul (- q) (b * time.Second)) =
  - (a - q * b) * time.Second.
Proof.
  intros Ha Hmax Hq. unfold Int64.sub, Int64.mul.
  assert (Int64.in_range (- q * (b * time.Second))) as H1.
  { int64_bounds. lia. }
  rewrite (wrap_in_range _ H1).
  replace (- a * time.Second - - q * (b * time.Second))
    with (- (a - q * b) * time.Second) by ring.
  apply wrap_in_range. int64_bounds. lia.
Qed.

Lemma Round_neg_seconds (s : Z) :
  0 < s -> s * time.Second <= time.maxDuration ->
  time.Round (- s * time.Second) time.Second = - s * time.Second.
Proof.
  intros Hs Hmax. unfold time.Round.
  change (time.Second <=? 0) with false. cbv iota.
  unfold Int64.rem. rewrite Z.rem_mul by discriminate.
  destruct (Z.ltb_spec (- s * time.Second) 0) as [_ | Hn];
    [| unfold time.Second in Hn; lia].
  change (Int64.neg 0) with 0.
  change (time.lessThanHalf 0 time.Second) with true. cbv iota.
  unfold Int64.add. rewrite Z.add_0_r. apply wrap_in_range.
  int64_bounds. lia.
Qed.

(** X13: [formatDuration] never prints hours for a negative span: a span
    of [-s] whole seconds prints as two fields, the negated minutes and
    the negated seconds of [s], and the hours are lost. *)
Theorem formatDuration_negative (s : Z) :
  0 < s -> s * time.Second <= time.maxDuration ->
  formatDuration (- s * time.Second) =
  fmt.Sprintf02d (- (s / 60 mod 60)) ++ str ":" ++ fmt.Sprintf02d (- (s mod 60)).
Proof.
  intros Hs Hmax. unfold formatDuration.
  rewrite Round_neg_seconds by assumption.
  replace time.Hour with (3600 * time.Second) by (unfold time.Hour, time.Minute; ring).
  replace time.Minute with (60 * time.Second) by reflexivity.
  rewrite (quo_neg_seconds s 3600) by (assumption || lia).
  assert (0 <= s / 3600 * 3600 <= s) as H1.
  { pose proof (Z.div_mod s 3600 ltac:(lia)).
    pose proof (Z.mod_pos_bound s 3600 ltac:(lia)).
    pose proof (Z.div_pos s 3600 ltac:(lia) ltac:(lia)). lia. }
  rewrite (sub_mul_neg_seconds s (s / 3600) 3600) by (assumption || lia).
  assert (s - s / 3600 * 3600 = s mod 3600) as ->.
  { pose proof (Z.div_mod s 3600 ltac:(lia)). lia. }
  pose proof (Z.mod_pos_bound s 3600 ltac:(lia)) as Hm.
  assert (s mod 3600 * time.Second <= time.maxDuration) as Hmax'.
  { int64_bounds. lia. }
  rewrite (quo_neg_seconds (s mod 3600) 60) by (assumption || lia).
  assert (0 <= s mod 3600 / 60 * 60 <= s mod 3600) as H2.
  { pose proof (Z.div_mod (s mod 3600) 60 ltac:(lia)).
    pose proof (Z.mod_pos_bound (s mod 3600) 60 ltac:(lia)).
    pose proof (Z.div_pos (s mod 3600) 60 ltac:(lia) ltac:(lia)). lia. }
  rewrite (sub_mul_neg_seconds (s mod 3600) (s mod 3600 / 60) 60)
    by (assumption || lia).
  assert (s mod 3600 / 60 = s / 60 mod 60) as E1.
  { Z.div_mod_to_equations. lia. }
  assert (s mod 3600 - s mod 3600 / 60 * 60 = s mod 60) as E2.
  { Z.div_mod_to_equations. lia. }
  rewrite E2, E1.
  pose proof (Z.mod_pos_bound s 60 ltac:(lia)) as Hm60.
  assert (Int64.quo (- (s mod 60) * time.Second) time.Second = - (s mod 60))
    as Hq.
  { pose proof (quo_neg_seconds (s mod 60) 1) as Hq.
    rewrite Z.mul_1_l, Z.div_1_r in Hq. apply Hq; try lia.
    int64_bounds. lia. }
  rewrite !Hq.
  pose proof (Z.div_pos s 3600 ltac:(lia) ltac:(lia)).
  destruct (Z.ltb_spec 0 (- (s / 3600))); [lia | reflexivity].
Qed.

(** ** The running screen *)

Section Screen.

Context {T : Type} `{TI : TextInput T}.

(** X14: the running screen of a session.  With a timer of [n] minutes
    and [j] seconds remaining, [View] shows the clock reading of [j], the
    fraction of the elapsed [60 n - j] seconds over the total, the done
    line exactly when [j] is zero, and the clock readings of the elapsed
    and the total seconds. *)
Theorem running_view (m : model T) :
  reachable m -> state m = running ->
  exists n j : Z,
    0 < n <= 99999 /\ 0 <= j <= 60 * n
    /\ duration m = n * time.Minute /\ timeRemaining m = j * time.Second
    /\ View m =
       timerFrame
         {| timeStr := clock j;
            fraction := PrimFloat.div (float64 ((60 * n - j) * time.Second))
                                      (float64 (n * time.Minute));
            doneLine := (j =? 0);
            elapsedStr := clock (60 * n - j);
            totalStr := clock (60 * n) |}.
Proof.
  intros Hr Hs.
  destruct (reachable_shape m Hr) as [(n & j & Hn & Hd & Hj & Ht) H2 _ _].
  pose proof (inv_running m (reachable_invariant m Hr) Hs) as Hpos.
  assert (0 < n) as Hn0 by (rewrite Hd in Hpos; int64_bounds; lia).
  exists n, j. repeat split; try lia; try assumption.
  assert (elapsed m = (60 * n - j) * time.Second) as He.
  { unfold elapsed, Int64.sub. rewrite Hd, Ht.
    rewrite wrap_in_range by (int64_bounds; lia).
    unfold time.Minute, time.Duration. ring. }
  assert (done m = (j =? 0)) as Hdone.
  { destruct (H2 Hs) as [Ha Hb].
    destruct (Z.eqb_spec j 0) as [Hj0 | Hj0].
    - apply Hb. rewrite Ht, Hj0. reflexivity.
    - destruct (done m); [| reflexivity].
      specialize (Ha eq_refl). rewrite Ht in Ha. int64_bounds. lia. }
  unfold View, percentComplete. rewrite Hs, He, Hdone, Hd, Ht.
  rewrite (formatDuration_seconds j) by (try lia; int64_bounds; lia).
  rewrite (formatDuration_seconds (60 * n - j))
    by (try lia; int64_bounds; lia).
  replace (n * time.Minute) with (60 * n * time.Second)
    by (unfold time.Minute, time.Duration; ring).
  rewrite (formatDuration_seconds (60 * n)) by (try lia; int64_bounds; lia).
  reflexivity.
Qed.

End Screen.

(** ** Instances of the further properties *)

Lemma confirm_accepts_exactly_witness :
  Update (typed (str " +007 ")) (KeyMsg enterKey)
  = (startedWith (typed (str " +007 ")) (7 * time.Minute), nilCmd)
  /\ Update (typed (str "9223372036854775808")) (KeyMsg enterKey)
     = (set_err (typed (str "9223372036854775808")) errInvalid, nilCmd).
Proof.
  split.
  - exact (confirm_accepts_exactly (typed (str " +007 ")) enterKey
             eq_refl eq_refl).
  - exact (confirm_accepts_exactly (typed (str "9223372036854775808")) enterKey
             eq_refl eq_refl).
Defined.

Lemma confirm_in_session_witness :
  let m := run initialModel [key tea.KeyRunes (str "25")] in
  25 <= 99999
  /\ Update m (KeyMsg enterKey) = (startedWith m (25 * time.Minute), nilCmd).
Proof.
  intros m.
  exact (confirm_in_session m enterKey
           (reachable_run _ _ reachable_init) eq_refl eq_refl).
Defined.

Lemma done_iff_finished_witness :
  done finished = true <-> state finished = running /\ timeRemaining finished = 0.
Proof.
  apply (done_iff_finished finished).
  unfold finished, started. apply reachable_run. apply reachable_run.
  apply reachable_init.
Defined.

Lemma session_whole_seconds_witness :
  exists n j : Z,
    0 <= n <= 99999 /\ duration started = n * time.Minute
    /\ 0 <= j <= 60 * n /\ timeRemaining started = j * time.Second
    /\ elapsed started = (60 * n - j) * time.Second
    /\ time.Round (timeRemaining started) time.Second = timeRemaining started.
Proof.
  apply (session_whole_seconds started).
  unfold started. apply reachable_run. apply reachable_init.
Defined.

Lemma session_error_text_witness :
  let m := run initialModel [key tea.KeyRunes (str "abc"); enter] in
  (err m = [] \/ err m = errInvalid)
  /\ (state m = running -> err m = [])
  /\ (state m = inputtingTime ->
      View m = inputFrame (Value (textInput m))
                          (if List.length (err m) =? 0 then None
                           else Some errInvalid)%nat).
Proof.
  intros m. apply (session_error_text m).
  apply reachable_run. apply reachable_init.
Defined.

Lemma ticks_count_down_witness :
  timeRemaining (run started (map tickMsg [0; 1; 2]))
    = Z.max 0 (timeRemaining started
               - Z.of_nat (List.length [0; 1; 2]) * time.Second)
  /\ done (run started (map tickMsg [0; 1; 2]))
     = done started || ((0 <? timeRemaining started)
                        && (timeRemaining started
                            - Z.of_nat (List.length [0; 1; 2]) * time.Second
                            <=? 0)).
Proof.
  apply (ticks_count_down started [0; 1; 2]).
  - reflexivity.
  - vm_compute. split; discriminate.
Defined.

Lemma confirm_then_ticks_witness :
  let j := Z.of_nat (List.length (repeat 0 120)) in
  let m' := run (typed (strconv.Itoa 2))
                (KeyMsg enterKey :: map tickMsg (repeat 0 120)) in
  state m' = running
  /\ duration m' = 2 * time.Minute
  /\ timeRemaining m' = Z.max 0 (60 * 2 - j) * time.Second
  /\ (done m' = true <-> 60 * 2 <= j).
Proof.
  apply (confirm_then_ticks (typed (strconv.Itoa 2)) enterKey 2 (repeat 0 120)).
  - reflexivity.
  - reflexivity.
  - reflexivity.
  - reflexivity.
  - unfold maxMinutes. lia.
Defined.

Lemma running_ignores_input_witness :
  Update started enter = (started, nilCmd)
  /\ Update started (key tea.KeyRunes (str "5")) = (started, nilCmd)
  /\ Update started (key tea.KeyEsc []) = (started, Quit).
Proof.
  split; [| split].
  - exact (running_ignores_input started enter eq_refl eq_refl).
  - exact (running_ignores_input started (key tea.KeyRunes (str "5"))
             eq_refl eq_refl).
  - exact (running_ignores_input started (key tea.KeyEsc []) eq_refl eq_refl).
Defined.

Lemma running_is_final_witness :
  let msgs := [enter; key tea.KeyRunes (str "9"); tickMsg 0; otherMsg 1] in
  state (run started msgs) = running
  /\ duration (run started msgs) = duration started
  /\ textInput (run started msgs) = textInput started
  /\ err (run started msgs) = err started
  /\ timeRemaining (run started msgs) <= timeRemaining started.
Proof.
  intros msgs. apply (running_is_final started msgs). reflexivity.
Defined.

Lemma done_is_kept_witness :
  done (run finished [enter; tickMsg 0; key tea.KeyRunes (str "1")]) = true.
Proof.
  apply (done_is_kept finished). vm_compute. reflexivity.
Defined.

Lemma ticks_without_effect_witness :
  run (typed (str "12")) (map tickMsg [0; 1]) = typed (str "12")
  /\ run overflowed (map tickMsg [0; 1]) = overflowed.
Proof.
  split.
  - apply (ticks_without_effect (typed (str "12")) [0; 1]). left. reflexivity.
  - apply (ticks_without_effect overflowed [0; 1]). right.
    vm_compute. discriminate.
Defined.

Lemma formatDuration_rounds_witness :
  formatDuration 1500000000 = clock ((1500000000 + 500000000) / 1000000000)
  /\ formatDuration 1499999999 = clock ((1499999999 + 500000000) / 1000000000).
Proof.
  split.
  - apply (formatDuration_rounds 1500000000); [lia | vm_compute; discriminate].
  - apply (formatDuration_rounds 1499999999); [lia | vm_compute; discriminate].
Defined.

Lemma formatDuration_negative_witness :
  formatDuration (- 3661 * time.Second) =
  fmt.Sprintf02d (- (3661 / 60 mod 60)) ++ str ":"
  ++ fmt.Sprintf02d (- (3661 mod 60)).
Proof.
  apply (formatDuration_negative 3661); [lia | vm_compute; discriminate].
Defined.

Lemma running_view_witness :
  exists n j : Z,
    0 < n <= 99999 /\ 0 <= j <= 60 * n
    /\ duration started = n * time.Minute
    /\ timeRemaining started = j * time.Second
    /\ View started =
       timerFrame
         {| timeStr := clock j;
            fraction := PrimFloat.div (float64 ((60 * n - j) * time.Second))
                                      (float64 (n * time.Minute));
            doneLine := (j =? 0);
            elapsedStr := clock (60 * n - j);
            totalStr := clock (60 * n) |}.
Proof.
  apply (running_view started).
  - unfold started. apply reachable_run. apply reachable_init.
  - reflexivity.
Defined.

Example formatDuration_negative_text :
  formatDuration (- 3661 * time.Second) = str "-1:-1"
  /\ formatDuration (- 7200 * time.Second) = str "00:00".
Proof.
  vm_compute. split; reflexivity.
Qed.

Example formatDuration_rounds_text :
  formatDuration 1500000000 = str "00:02"
  /\ formatDuration 1499999999 = str "00:01".
Proof.
  vm_compute. split; reflexivity.
Qed.

(** ** Submitting a numeral in a session *)

Lemma formatLoop_short (fuel : nat) : forall (u : Z) (k : nat),
  0 <= u -> (k < fuel)%nat ->
  (List.length (strconv.formatLoop fuel u []) <= k)%nat ->
  u < 10 ^ Z.of_nat k.
Proof.
  induction fuel as [| fuel IH]; intros u k Hu Hk Hlen; [lia|].
  destruct (Z.lt_ge_cases u 10) as [Hs | Hb].
  - rewrite formatLoop_small in Hlen by exact Hs. cbn [List.length] in Hlen.
    destruct k as [| k]; [lia|].
    rewrite Nat2Z.inj_succ, Z.pow_succ_r by lia.
    pose proof (Z.pow_pos_nonneg 10 (Z.of_nat k) ltac:(lia) ltac:(lia)). lia.
  - rewrite formatLoop_step in Hlen by exact Hb.
    rewrite length_app in Hlen. cbn [List.length] in Hlen.
    destruct k as [| k]; [lia|].
    assert (u / 10 < 10 ^ Z.of_nat k) as Hq.
    { apply IH; [apply Z.div_pos; lia | lia | lia]. }
    rewrite Nat2Z.inj_succ, Z.pow_succ_r by lia.
    pose proof (Z.div_mod u 10 ltac:(lia)).
    pose proof (Z.mod_pos_bound u 10 ltac:(lia)). lia.
Qed.

(** A numeral that fits the input field is at most 99999. *)
Lemma numeral_within_limit (n : Z) :
  0 < n -> utf8.runeStarts (strconv.Itoa n) <= CharLimit -> n <= 99999.
Proof.
  intros Hn Hl. unfold strconv.Itoa in Hl.
  destruct (Z.ltb_spec n 0) as [Hneg | _]; [lia|].
  pose proof (formatDigits_digits n ltac:(lia)) as Hd.
  rewrite (runeStarts_ascii _ (digits_signOrDigit _ Hd)) in Hl.
  unfold CharLimit in Hl.
  assert (n < 10 ^ Z.of_nat 5) as Hb.
  { apply (formatLoop_short 20); [lia | lia |].
    unfold strconv.formatDigits in Hl. lia. }
  change (10 ^ Z.of_nat 5) with 100000 in Hb. lia.
Qed.

Section InSession.

Context {T : Type} `{TI : TextInput T}.

Implicit Types (m : model T) (k : tea.Key).

Lemma padded_numeral_within_limit m (n : Z) (ws1 ws2 : gostring) :
  reachable m -> 0 < n ->
  Value (textInput m) = ws1 ++ strconv.Itoa n ++ ws2 ->
  0 < n <= maxMinutes.
Proof.
  intros Hr Hn Hv.
  pose proof (inv_limit m (reachable_invariant m Hr)) as Hl.
  rewrite Hv, !runeStarts_app in Hl.
  pose proof (runeStarts_nonneg ws1). pose proof (runeStarts_nonneg ws2).
  pose proof (numeral_within_limit n Hn ltac:(lia)).
  unfold maxMinutes. lia.
Qed.

(** C1: for every positive integer [n], when a session is in the input
    phase and the buffer holds the decimal numeral of [n], confirming
    moves to the running phase with the total duration and the remaining
    time both [n] minutes and the validation error empty. *)
Theorem confirm_numeral_in_session m k (n : Z) :
  reachable m ->
  tea.Type_ k = tea.KeyEnter ->
  state m = inputtingTime ->
  Value (textInput m) = strconv.Itoa n ->
  0 < n ->
  state (fst (Update m (KeyMsg k))) = running
  /\ duration (fst (Update m (KeyMsg k))) = n * time.Minute
  /\ timeRemaining (fst (Update m (KeyMsg k))) = n * time.Minute
  /\ err (fst (Update m (KeyMsg k))) = [].
Proof.
  intros Hr Hk Hs Hv Hn.
  assert (Value (textInput m) = [] ++ strconv.Itoa n ++ []) as Hv'
    by (rewrite app_nil_r; exact Hv).
  pose proof (padded_numeral_within_limit m n [] [] Hr Hn Hv') as Hn'.
  rewrite (Update_enter m k Hk Hs).
  rewrite (submit_numeral m n [] [] spaces_nil spaces_nil Hn' Hv').
  repeat split.
Qed.

(** C10: the submitted text is trimmed before it is parsed.  In a
    session, for every positive integer [n], a buffer made of white space,
    the decimal numeral of [n] and white space starts the timer with [n]
    minutes, and the new state is the one the bare numeral gives; a buffer
    of white space only is refused. *)
Theorem confirm_trims_in_session m k (n : Z) (ws1 ws2 : gostring) :
  reachable m ->
  tea.Type_ k = tea.KeyEnter ->
  state m = inputtingTime ->
  spaces ws1 -> spaces ws2 ->
  (0 < n ->
   Value (textInput m) = ws1 ++ strconv.Itoa n ++ ws2 ->
   state (fst (Update m (KeyMsg k))) = running
   /\ duration (fst (Update m (KeyMsg k))) = n * time.Minute
   /\ timeRemaining (fst (Update m (KeyMsg k))) = n * time.Minute
   /\ err (fst (Update m (KeyMsg k))) = []
   /\ forall m0, state m0 = inputtingTime ->
        Value (textInput m0) = strconv.Itoa n ->
        set_textInput (fst (Update m (KeyMsg k))) (textInput m0) =
        fst (Update (set_textInput m (textInput m0)) (KeyMsg k)))
  /\ (Value (textInput m) = ws1 ->
      state (fst (Update m (KeyMsg k))) = inputtingTime
      /\ textInput (fst (Update m (KeyMsg k))) = textInput m
      /\ err (fst (Update m (KeyMsg k))) = errInvalid).
Proof.
  intros Hr Hk Hs H1 H2. rewrite (Update_enter m k Hk Hs). split.
  - intros Hn Hv.
    pose proof (padded_numeral_within_limit m n ws1 ws2 Hr Hn Hv) as Hn'.
    rewrite (submit_numeral m n ws1 ws2 H1 H2 Hn' Hv).
    repeat split. intros m0 Hs0 Hv0.
    rewrite (Update_enter (set_textInput m (textInput m0)) k Hk Hs).
    rewrite (submit_numeral (set_textInput m (textInput m0)) n [] []
               spaces_nil spaces_nil Hn').
    + reflexivity.
    + cbn [textInput set_textInput]. rewrite app_nil_r. exact Hv0.
  - intros Hv. rewrite submit_refused.
    + cbn [fst state textInput err set_err]. repeat split. exact Hs.
    + rewrite Hv, (TrimSpace_spaces _ H1). reflexivity.
Qed.

End InSession.

Lemma confirm_numeral_in_session_witness :
  let m := run initialModel [key tea.KeyRunes (strconv.Itoa 99999)] in
  state (fst (Update m (KeyMsg enterKey))) = running
  /\ duration (fst (Update m (KeyMsg enterKey))) = 99999 * time.Minute
  /\ timeRemaining (fst (Update m (KeyMsg enterKey))) = 99999 * time.Minute
  /\ err (fst (Update m (KeyMsg enterKey))) = [].
Proof.
  intros m. apply (confirm_numeral_in_session m enterKey 99999).
  - apply reachable_run. apply reachable_init.
  - reflexivity.
  - reflexivity.
  - reflexivity.
  - lia.
Defined.

Lemma spaces_blanks : spaces (str "  ").
Proof. apply spaces_ascii; [reflexivity | apply spaces_blank]. Qed.

Lemma confirm_trims_in_session_witness :
  let m := run initialModel [key tea.KeyRunes (str " 5 ")] in
  let b := run initialModel [key tea.KeyRunes (str "  ")] in
  state (fst (Update m (KeyMsg enterKey))) = running
  /\ duration (fst (Update m (KeyMsg enterKey))) = 5 * time.Minute
  /\ state (fst (Update b (KeyMsg enterKey))) = inputtingTime
  /\ err (fst (Update b (KeyMsg enterKey))) = errInvalid.
Proof.
  intros m b.
  destruct (confirm_trims_in_session m enterKey 5 (str " ") (str " ")
              (reachable_run _ _ reachable_init) eq_refl eq_refl
              spaces_blank spaces_blank) as [H _].
  destruct (H ltac:(lia) eq_refl) as (H1 & H2 & _).
  destruct (confirm_trims_in_session b enterKey 5 (str "  ") (str " ")
              (reachable_run _ _ reachable_init) eq_refl eq_refl
              spaces_blanks spaces_blank) as [_ H'].
  destruct (H' eq_refl) as (H3 & _ & H4).
  repeat split; assumption.
Defined.
